(** * A daily task list with end-of-day rollover: the popup script

    A shallow embedding of the popup script of the todo extension and the
    properties of its rollover, rendering and editing code.

    The repository holds two revisions of the script.  The later one
    (tasks carry an [id], lists are displayed incomplete-first, a checkbox
    toggles completion) is embedded at the top level; the earlier one,
    [popup.js], is embedded in [Module Popup] and shares the run-time model.

    Modelling conventions.
    - A JavaScript array is a mutable object: arrays live in a [heap] and
      values refer to them by location, so that aliasing ([listArray] in the
      click handlers, the copy made by [slice]) is visible.
    - [chrome.storage.sync] keeps structured copies, not references: the
      storage maps a key to a [Stored] value.  Every call of
      [chrome.storage.sync.set] is also recorded, in [saves], so that a run
      that writes nothing can be told from a run that writes what was
      stored already.
    - Task objects are shared by an array and its copies ([slice],
      [filter]), but no code path changes a task through a copy: the one
      assignment to a task goes through [listArray], and the copies are
      only read.  Tasks are therefore kept by value in the arrays.
    - The script is single threaded and each [async] function is run here
      from start to end; interleavings at [await] are out of scope.  A call
      of [initialize()] that is not awaited is recorded in the queue of
      pending jobs and run by the event loop afterwards.
    - The clock is an input: [todayDate] stands for the string that
      [getTodayDateString()] returns, [now] for the number [Date.now()]
      returns. *)

From stdpp Require Import base option list strings gmap.
From Stdlib Require Import Ascii ZArith Lia.

Local Open Scope string_scope.
Local Open Scope list_scope.
Local Open Scope nat_scope.

(** ** Strings: [String.prototype.trim] *)

(** ECMAScript white space and line terminators among the code units
    U+0000..U+00FF, the alphabet of [string]: TAB, LF, VT, FF, CR, SP,
    NBSP. *)
Definition isWhiteSpace (c : ascii) : bool :=
  let n := Ascii.N_of_ascii c in
  ((9 <=? n) && (n <=? 13) || (n =? 32) || (n =? 160))%N.

Fixpoint trimStart (s : string) : string :=
  match s with
  | EmptyString => EmptyString
  | String c s' => if isWhiteSpace c then trimStart s' else s
  end.

Fixpoint trimEnd (s : string) : string :=
  match s with
  | EmptyString => EmptyString
  | String c s' =>
      match trimEnd s' with
      | EmptyString => if isWhiteSpace c then EmptyString else String c EmptyString
      | r => String c r
      end
  end.

Definition trim (s : string) : string := trimEnd (trimStart s).

(** A text made of white space only (the empty text included). *)
Fixpoint onlyWhiteSpace (s : string) : bool :=
  match s with
  | EmptyString => true
  | String c s' => isWhiteSpace c && onlyWhiteSpace s'
  end.

(** ** Tasks, values and the world *)

(** A task object.  [id] is [None] when the object has no such property
    (the tasks made by [popup.js]); otherwise it is the number given by
    [Date.now()]. *)
Record Task := mkTask {
  id : option Z;
  text : string;
  completed : bool
}.

Global Instance Task_eq_dec : EqDecision Task.
Proof. solve_decision. Defined.

(** Array references. *)
Abbreviation loc := nat.

(** The run-time values the script handles. *)
Inductive Val :=
  | VUndefined
  | VString (s : string)
  | VArray (a : loc).

Global Instance Val_eq_dec : EqDecision Val.
Proof. solve_decision. Defined.

(** What the storage holds under a key. *)
Inductive Stored :=
  | SString (s : string)
  | SArray (l : list Task).

Global Instance Stored_eq_dec : EqDecision Stored.
Proof. solve_decision. Defined.

(** An [<li>] made by [createTaskElement]: the task it shows and the
    variables its handlers close over. *)
Record Element := mkElement {
  el_task : Task;
  el_listArray : Val;
  el_index : nat;
  el_isSpillover : bool
}.

(** The part of the page the script reads and writes. *)
Record Document := mkDocument {
  taskList : list Element;            (* children of #taskList *)
  spilloverList : list Element;       (* children of #spilloverList *)
  spilloverSection_display : bool;    (* true: 'block', false: 'none' *)
  taskInput_value : string;           (* #taskInput.value *)
  listeners_set : bool                (* #addTaskButton[data-listeners-set] *)
}.

(** Calls that were started and not awaited. *)
Inductive Job := JInitialize.

Record World := mkWorld {
  heap : list (list Task);
  storage : gmap string Stored;
  document : Document;
  pending : list Job;
  saves : list (gmap string Stored)   (* what each call of
                                         chrome.storage.sync.set wrote *)
}.

(** ** The monad of the script: state, and [None] for an uncaught
    [TypeError] *)

Definition M (A : Type) : Type := World → option (A * World).

Definition ret {A} (x : A) : M A := λ w, Some (x, w).

Definition bind {A B} (m : M A) (k : A → M B) : M B :=
  λ w, match m w with
       | Some (x, w') => k x w'
       | None => None
       end.

Definition throw {A} : M A := λ _, None.

Notation "'do' x <~ m ; k" := (bind m (λ x, k))
  (at level 10, x name, m at level 100, k at level 200).
Notation "'do' ' p <~ m ; k" := (bind m (λ x, match x with p => k end))
  (at level 10, p pattern, m at level 100, k at level 200).
Notation "m ;; k" := (bind m (λ _, k))
  (at level 100, k at level 200, right associativity).

Definition get_world : M World := λ w, Some (w, w).
Definition set_heap (h : list (list Task)) : M unit :=
  λ w, Some (tt, mkWorld h (storage w) (document w) (pending w) (saves w)).
Definition set_storage (s : gmap string Stored) : M unit :=
  λ w, Some (tt, mkWorld (heap w) s (document w) (pending w) (saves w)).
Definition set_document (d : Document) : M unit :=
  λ w, Some (tt, mkWorld (heap w) (storage w) d (pending w) (saves w)).
Definition record_save (written : gmap string Stored) : M unit :=
  λ w, Some (tt, mkWorld (heap w) (storage w) (document w) (pending w)
                   (saves w ++ [written])).
Definition clear_pending : M unit :=
  λ w, Some (tt, mkWorld (heap w) (storage w) (document w) [] (saves w)).
Definition spawn (j : Job) : M unit :=
  λ w, Some (tt, mkWorld (heap w) (storage w) (document w) (pending w ++ [j]) (saves w)).

(** *** Arrays *)

(** A new array with the given elements. *)
Definition alloc (l : list Task) : M loc :=
  do w <~ get_world;
  set_heap (heap w ++ [l]) ;;
  ret (length (heap w)).

(** The elements of an array value; any method call on a value that is not
    an array throws. *)
Definition elements_of (v : Val) : M (list Task) :=
  match v with
  | VArray a =>
      do w <~ get_world;
      match heap w !! a with
      | Some l => ret l
      | None => throw
      end
  | _ => throw
  end.

Definition write (a : loc) (l : list Task) : M unit :=
  do w <~ get_world;
  set_heap (<[a := l]> (heap w)).

Definition store_elements (v : Val) (l : list Task) : M unit :=
  match v with
  | VArray a => write a l
  | _ => throw
  end.

(** [v.filter(p)]: a new array. *)
Definition array_filter (p : Task → bool) (v : Val) : M Val :=
  do l <~ elements_of v;
  do a <~ alloc (List.filter p l);
  ret (VArray a).

(** [v.slice()]: a shallow copy. *)
Definition array_slice (v : Val) : M Val :=
  do l <~ elements_of v;
  do a <~ alloc l;
  ret (VArray a).

(** [v.push(t)]. *)
Definition array_push (v : Val) (t : Task) : M unit :=
  do l <~ elements_of v;
  store_elements v (l ++ [t]).

(** [l.splice(start, deleteCount)] for a start that is not negative: past
    the end nothing is removed. *)
Definition splice (start deleteCount : nat) (l : list Task) : list Task :=
  take start l ++ drop (start + deleteCount) l.

Definition array_splice (v : Val) (start deleteCount : nat) : M unit :=
  do l <~ elements_of v;
  store_elements v (splice start deleteCount l).

(** [l.findIndex(p)]; [None] is the result -1. *)
Fixpoint findIndex (p : Task → bool) (l : list Task) : option nat :=
  match l with
  | [] => None
  | t :: l' => if p t then Some 0 else S <$> findIndex p l'
  end.

Definition array_findIndex (p : Task → bool) (v : Val) : M (option nat) :=
  do l <~ elements_of v;
  ret (findIndex p l).

(** [Array.prototype.sort] is stable, and for a consistent comparator its
    result is the one stable ordering; it is computed here by insertion.
    [cmp a b < 0] puts [a] first, [cmp a b > 0] puts [b] first. *)
Fixpoint insert_by (cmp : Task → Task → Z) (x : Task) (l : list Task) : list Task :=
  match l with
  | [] => [x]
  | y :: l' => if (cmp x y <=? 0)%Z then x :: y :: l' else y :: insert_by cmp x l'
  end.

Definition sort_by (cmp : Task → Task → Z) (l : list Task) : list Task :=
  foldr (insert_by cmp) [] l.

(** [v.sort(cmp)]: sorts in place and returns the same array. *)
Definition array_sort (cmp : Task → Task → Z) (v : Val) : M Val :=
  do l <~ elements_of v;
  store_elements v (sort_by cmp l) ;;
  ret v.

Fixpoint forEach {A} (f : A → M unit) (l : list A) : M unit :=
  match l with
  | [] => ret tt
  | x :: l' => f x ;; forEach f l'
  end.

Definition array_forEach (f : Task → M unit) (v : Val) : M unit :=
  do l <~ elements_of v;
  forEach f l.

(** *** Truthiness and strict equality *)

Definition truthy (v : Val) : bool :=
  match v with
  | VUndefined => false
  | VString s => negb (bool_decide (s = ""))
  | VArray _ => true
  end.

(** [a !== b]: arrays are compared by reference, strings by content. *)
Definition strict_ne (a b : Val) : bool := negb (bool_decide (a = b)).

(** ** Storage keys *)

Definition TODAY_TASKS_KEY : string := "tasks".
Definition SPILLOVER_TASKS_KEY : string := "spilloverTasks".
Definition LAST_OPEN_DATE_KEY : string := "lastOpenDate".

(** ** Utility functions *)

(** The copy of a value that the storage keeps; a property whose value is
    [undefined] is not stored. *)
Definition serialize (h : list (list Task)) (v : Val) : option Stored :=
  match v with
  | VUndefined => None
  | VString s => Some (SString s)
  | VArray a => SArray <$> h !! a
  end.

(** [data[key]] in the callback of [chrome.storage.sync.get]: a fresh copy
    of what is stored. *)
Definition storage_get (key : string) : M Val :=
  do w <~ get_world;
  match storage w !! key with
  | None => ret VUndefined
  | Some (SString s) => ret (VString s)
  | Some (SArray l) => do a <~ alloc l; ret (VArray a)
  end.

(** [a || []]. *)
Definition or_empty_array (v : Val) : M Val :=
  if truthy v then ret v else do a <~ alloc []; ret (VArray a).

Definition getData (key : string) : M Val :=
  do v <~ storage_get key;
  or_empty_array v.

(** [chrome.storage.sync.set(data)]: every key of [data] is overwritten,
    the other keys stay. *)
Definition saveData (data : gmap string Val) : M unit :=
  do w <~ get_world;
  let written := omap (serialize (heap w)) data in
  set_storage (written ∪ storage w) ;;
  record_save written.

(** ** Task rendering *)

Definition set_taskList (l : list Element) : M unit :=
  do w <~ get_world;
  let d := document w in
  set_document (mkDocument l (spilloverList d) (spilloverSection_display d)
                  (taskInput_value d) (listeners_set d)).

Definition set_spilloverList (l : list Element) : M unit :=
  do w <~ get_world;
  let d := document w in
  set_document (mkDocument (taskList d) l (spilloverSection_display d)
                  (taskInput_value d) (listeners_set d)).

Definition set_spilloverSection_display (b : bool) : M unit :=
  do w <~ get_world;
  let d := document w in
  set_document (mkDocument (taskList d) (spilloverList d) b
                  (taskInput_value d) (listeners_set d)).

Definition set_taskInput_value (s : string) : M unit :=
  do w <~ get_world;
  let d := document w in
  set_document (mkDocument (taskList d) (spilloverList d)
                  (spilloverSection_display d) s (listeners_set d)).

Definition set_listeners_set (b : bool) : M unit :=
  do w <~ get_world;
  let d := document w in
  set_document (mkDocument (taskList d) (spilloverList d)
                  (spilloverSection_display d) (taskInput_value d) b).

Definition taskList_appendChild (e : Element) : M unit :=
  do w <~ get_world;
  set_taskList (taskList (document w) ++ [e]).

Definition spilloverList_appendChild (e : Element) : M unit :=
  do w <~ get_world;
  set_spilloverList (spilloverList (document w) ++ [e]).

Definition createTaskElement
    (task : Task) (listArray : Val) (index : nat) (isSpillover : bool) : Element :=
  mkElement task listArray index isSpillover.

Definition key_of (isSpillover : bool) : string :=
  if isSpillover then SPILLOVER_TASKS_KEY else TODAY_TASKS_KEY.

(** The [change] listener of the checkbox of [e]; [checked] is the state
    of the checkbox when the event fires.  Writing to [listArray[index]]
    throws when there is no such element.  The class changes of the item
    and the wait for the animation touch nothing that is modelled. *)
Definition checkbox_change (e : Element) (checked : bool) : M unit :=
  do l <~ elements_of (el_listArray e);
  match l !! el_index e with
  | None => throw
  | Some t =>
      store_elements (el_listArray e)
        (<[el_index e := mkTask (id t) (text t) checked]> l)
  end ;;
  saveData {[ key_of (el_isSpillover e) := el_listArray e ]} ;;
  spawn JInitialize.

(** The [click] listener of the delete button of [e]. *)
Definition deleteBtn_click (e : Element) : M unit :=
  array_splice (el_listArray e) (el_index e) 1 ;;
  saveData {[ key_of (el_isSpillover e) := el_listArray e ]} ;;
  spawn JInitialize.

(** [(a, b) => a.completed - b.completed], with [false] as 0 and [true]
    as 1. *)
Definition by_completed (a b : Task) : Z :=
  (Z.b2z (completed a) - Z.b2z (completed b))%Z.

(** [t => t.id === task.id]. *)
Definition same_id (task t : Task) : bool := bool_decide (id t = id task).

Definition renderLists (todayTasks spilloverTasks : Val) : M unit :=
  set_taskList [] ;;
  set_spilloverList [] ;;
  do sortedTodayTasks <~ (do c <~ array_slice todayTasks; array_sort by_completed c);
  array_forEach (λ task,
      do originalIndex <~ array_findIndex (same_id task) todayTasks;
      match originalIndex with
      | Some i => taskList_appendChild (createTaskElement task todayTasks i false)
      | None => ret tt
      end) sortedTodayTasks ;;
  do sortedSpilloverTasks <~ (do c <~ array_slice spilloverTasks; array_sort by_completed c);
  do sorted <~ elements_of sortedSpilloverTasks;
  if truthy sortedSpilloverTasks && (0 <? length sorted)%nat then
    set_spilloverSection_display true ;;
    array_forEach (λ task,
        do originalIndex <~ array_findIndex (same_id task) spilloverTasks;
        match originalIndex with
        | Some i => spilloverList_appendChild (createTaskElement task spilloverTasks i true)
        | None => ret tt
        end) sortedSpilloverTasks
  else
    set_spilloverSection_display false.

(** ** Core logic: the daily rollover *)

(** [task => !task.completed]. *)
Definition incomplete (task : Task) : bool := negb (completed task).

Definition handleDailyRollover
    (todayDate : string) (todayTasks lastOpenDate : Val) : M (Val * Val) :=
  if truthy lastOpenDate && strict_ne lastOpenDate (VString todayDate) then
    do unfinishedTasks <~ array_filter incomplete todayTasks;
    do newTodayTasks <~ (do a <~ alloc []; ret (VArray a));
    saveData {[ SPILLOVER_TASKS_KEY := unfinishedTasks;
                TODAY_TASKS_KEY := newTodayTasks;
                LAST_OPEN_DATE_KEY := VString todayDate ]} ;;
    ret (newTodayTasks, unfinishedTasks)
  else
    (if negb (truthy lastOpenDate)
     then saveData {[ LAST_OPEN_DATE_KEY := VString todayDate ]}
     else ret tt) ;;
    do spilloverTasks <~ getData SPILLOVER_TASKS_KEY;
    ret (todayTasks, spilloverTasks).

(** ** Initialization *)

Definition initialize (todayDate : string) : M unit :=
  do todayTasks <~ getData TODAY_TASKS_KEY;
  do lastOpenDate <~ getData LAST_OPEN_DATE_KEY;
  do '(finalTodayTasks, finalSpilloverTasks) <~
     handleDailyRollover todayDate todayTasks lastOpenDate;
  renderLists finalTodayTasks finalSpilloverTasks ;;
  do w <~ get_world;
  if negb (listeners_set (document w)) then set_listeners_set true else ret tt.

(** ** Input handling *)

Definition addTask (now : Z) : M unit :=
  do w <~ get_world;
  let text := trim (taskInput_value (document w)) in
  if truthy (VString text) then
    do tasks <~ getData TODAY_TASKS_KEY;
    let newTask := mkTask (Some now) text false in
    array_push tasks newTask ;;
    saveData {[ TODAY_TASKS_KEY := tasks ]} ;;
    set_taskInput_value "" ;;
    spawn JInitialize
  else ret tt.

(** ** The event loop *)

Definition run_job (todayDate : string) (j : Job) : M unit :=
  match j with
  | JInitialize => initialize todayDate
  end.

(** Runs the calls that are pending, oldest first. *)
Definition settle (todayDate : string) : M unit :=
  do w <~ get_world;
  clear_pending ;;
  forEach (run_job todayDate) (pending w).

(** The first statements of [initialize]: the today list and the last open
    date are read from the storage and handed to [handleDailyRollover]. *)
Definition reconcile (todayDate : string) : M (Val * Val) :=
  do todayTasks <~ getData TODAY_TASKS_KEY;
  do lastOpenDate <~ getData LAST_OPEN_DATE_KEY;
  handleDailyRollover todayDate todayTasks lastOpenDate.

(** ** What the user does *)

(** Typing into the text field. *)
Definition type_text (s : string) : M unit := set_taskInput_value s.

Definition items_of (isSpillover : bool) (d : Document) : list Element :=
  if isSpillover then spilloverList d else taskList d.

(** [t => t.id === taskId] for a given id. *)
Definition has_id (taskId : option Z) (t : Task) : bool :=
  bool_decide (id t = taskId).

(** Deleting by id: the user presses the delete button of the item that
    shows the task with this id, in the today list or in the spillover
    list.  Where no item shows such a task there is no button to press. *)
Definition press_delete (isSpillover : bool) (taskId : option Z) : M unit :=
  do w <~ get_world;
  match List.find (λ e, has_id taskId (el_task e))
          (items_of isSpillover (document w)) with
  | Some e => deleteBtn_click e
  | None => ret tt
  end.

(** The k-th item of a list of the page, if there is one. *)
Definition on_item (isSpillover : bool) (k : nat) (f : Element → M unit) : M unit :=
  do w <~ get_world;
  match items_of isSpillover (document w) !! k with
  | Some e => f e
  | None => ret tt
  end.

(** The popup is opened: a new page and nothing in memory; the storage is
    what it was.  The script runs [initialize()]. *)
Definition open_popup (todayDate : string) : M unit :=
  (λ w, Some (tt, mkWorld [] (storage w)
                    (mkDocument [] [] false "" false) [] (saves w))) ;;
  initialize todayDate.

Inductive Event :=
  | Open
  | Add (text : string) (now : Z)
  | Toggle (isSpillover : bool) (k : nat) (checked : bool)
  | Delete (isSpillover : bool) (k : nat).

(** What an event leads to, on the date [todayDate]: the listener runs,
    then the event loop runs the [initialize()] that the listener started.
    [now] is what [Date.now()] returns in [addTask]. *)
Definition react (todayDate : string) (ev : Event) : M unit :=
  match ev with
  | Open => open_popup todayDate
  | Add s now => type_text s ;; addTask now ;; settle todayDate
  | Toggle isSpillover k checked =>
      on_item isSpillover k (λ e, checkbox_change e checked) ;; settle todayDate
  | Delete isSpillover k =>
      on_item isSpillover k deleteBtn_click ;; settle todayDate
  end.

(** ** The earlier revision, [popup.js] *)

Module Popup.

Definition getData (key : string) : M Val := storage_get key.

Definition createTaskElement
    (task : Task) (listArray : Val) (index : nat) (isSpillover : bool) : Element :=
  mkElement task listArray index isSpillover.

(** The [click] listener of the text of [e]. *)
Definition taskText_click (e : Element) : M unit :=
  do l <~ elements_of (el_listArray e);
  match l !! el_index e with
  | None => throw
  | Some t =>
      store_elements (el_listArray e)
        (<[el_index e := mkTask (id t) (text t) (negb (completed t))]> l)
  end ;;
  saveData {[ key_of (el_isSpillover e) := el_listArray e ]} ;;
  spawn JInitialize.

Definition deleteBtn_click (e : Element) : M unit :=
  array_splice (el_listArray e) (el_index e) 1 ;;
  saveData {[ key_of (el_isSpillover e) := el_listArray e ]} ;;
  spawn JInitialize.

(** [v.forEach((task, index) => f(task, index))]. *)
Definition array_forEach_indexed (f : Task → nat → M unit) (v : Val) : M unit :=
  do l <~ elements_of v;
  forEach (λ p, f p.2 p.1) (imap pair l).

Definition renderLists (todayTasks spilloverTasks : Val) : M unit :=
  set_taskList [] ;;
  set_spilloverList [] ;;
  array_forEach_indexed (λ task index,
      taskList_appendChild (createTaskElement task todayTasks index false))
    todayTasks ;;
  if truthy spilloverTasks then
    do l <~ elements_of spilloverTasks;
    if (0 <? length l) then
      set_spilloverSection_display true ;;
      array_forEach_indexed (λ task index,
          spilloverList_appendChild
            (createTaskElement task spilloverTasks index true))
        spilloverTasks
    else set_spilloverSection_display false
  else set_spilloverSection_display false.

Definition handleDailyRollover
    (todayDate : string) (todayTasks lastOpenDate : Val) : M (Val * Val) :=
  if truthy lastOpenDate && strict_ne lastOpenDate (VString todayDate) then
    do unfinishedTasks <~ array_filter incomplete todayTasks;
    do newTodayTasks <~ (do a <~ alloc []; ret (VArray a));
    saveData {[ SPILLOVER_TASKS_KEY := unfinishedTasks;
                TODAY_TASKS_KEY := newTodayTasks;
                LAST_OPEN_DATE_KEY := VString todayDate ]} ;;
    ret (newTodayTasks, unfinishedTasks)
  else
    (if negb (truthy lastOpenDate)
     then saveData {[ LAST_OPEN_DATE_KEY := VString todayDate ]}
     else ret tt) ;;
    do spilloverTasks <~ (do v <~ getData SPILLOVER_TASKS_KEY; or_empty_array v);
    ret (todayTasks, spilloverTasks).

Definition addTask : M unit :=
  do w <~ get_world;
  let text := trim (taskInput_value (document w)) in
  if truthy (VString text) then
    do tasks <~ (do v <~ getData TODAY_TASKS_KEY; or_empty_array v);
    let newTask := mkTask None text false in
    array_push tasks newTask ;;
    saveData {[ TODAY_TASKS_KEY := tasks ]} ;;
    set_taskInput_value "" ;;
    spawn JInitialize
  else ret tt.

Definition initialize (todayDate : string) : M unit :=
  do todayTasks <~ (do v <~ getData TODAY_TASKS_KEY; or_empty_array v);
  do lastOpenDate <~ getData LAST_OPEN_DATE_KEY;
  do '(finalTodayTasks, finalSpilloverTasks) <~
     handleDailyRollover todayDate todayTasks lastOpenDate;
  renderLists finalTodayTasks finalSpilloverTasks ;;
  do w <~ get_world;
  if negb (listeners_set (document w)) then set_listeners_set true else ret tt.

Definition reconcile (todayDate : string) : M (Val * Val) :=
  do todayTasks <~ (do v <~ getData TODAY_TASKS_KEY; or_empty_array v);
  do lastOpenDate <~ getData LAST_OPEN_DATE_KEY;
  handleDailyRollover todayDate todayTasks lastOpenDate.

Definition run_job (todayDate : string) (j : Job) : M unit :=
  match j with
  | JInitialize => initialize todayDate
  end.

Definition settle (todayDate : string) : M unit :=
  do w <~ get_world;
  clear_pending ;;
  forEach (run_job todayDate) (pending w).

End Popup.

(** ** Examples *)

(** The example of the rollover: one completed task and two incomplete
    ones, last opened the day before. *)
Definition example_tasks : list Task :=
  [ mkTask (Some 1%Z) "one" true;
    mkTask (Some 2%Z) "two" false;
    mkTask (Some 3%Z) "three" false ].

Definition empty_document : Document := mkDocument [] [] false "" false.

(** The world when the extension is opened for the first time. *)
Definition fresh_world : World := mkWorld [] ∅ empty_document [] [].

(** A world with the example list in memory at location 0. *)
Definition example_world : World :=
  mkWorld [example_tasks] ∅ empty_document [] [].

(** The example list is stored and the user has typed a text. *)
Definition typing_world : World :=
  mkWorld [] {[ TODAY_TASKS_KEY := SArray example_tasks ]}
    (mkDocument [] [] false "  buy milk " false) [] [].

(** The text field holds two spaces, a tab and a space. *)
Definition blank_world : World :=
  mkWorld [] ∅
    (mkDocument [] [] false
       (String " " (String " " (String (ascii_of_nat 9) (String " " EmptyString))))
       false) [] [].

(** The example of the order of display. *)
Definition order_example : list Task :=
  [ mkTask (Some 1%Z) "one" true;
    mkTask (Some 2%Z) "two" false;
    mkTask (Some 3%Z) "three" true;
    mkTask (Some 4%Z) "four" false ].

(** The order example as today array, the rollover example as spillover
    array. *)
Definition two_lists_world : World :=
  mkWorld [order_example; example_tasks]
    {[ TODAY_TASKS_KEY := SArray order_example;
       SPILLOVER_TASKS_KEY := SArray example_tasks;
       LAST_OPEN_DATE_KEY := SString "2024-01-02" ]}
    empty_document [] [].

(** A first session: the extension is opened, and two tasks are added
    while [Date.now()] returns the same number [now]. *)
Definition two_adds (todayDate : string) (now : Z) : M unit :=
  initialize todayDate ;;
  type_text "a" ;; addTask now ;; settle todayDate ;;
  type_text "b" ;; addTask now ;; settle todayDate.

(** The popup was opened the day before with one task stored, and is still
    open: the user has typed a text. *)
Definition yesterday_world : World :=
  mkWorld []
    {[ TODAY_TASKS_KEY := SArray [ mkTask (Some 1%Z) "one" false ];
       LAST_OPEN_DATE_KEY := SString "2024-01-01" ]}
    (mkDocument [] [] false "two" false) [] [].

(** ** Descriptions used in the statements *)

(** The world after a rollover of the today list [l]. *)
Definition rolled_over (todayDate : string) (l : list Task) (w : World) : World :=
  mkWorld (heap w ++ [List.filter incomplete l; []])
    (<[SPILLOVER_TASKS_KEY := SArray (List.filter incomplete l)]>
       (<[TODAY_TASKS_KEY := SArray []]>
          (<[LAST_OPEN_DATE_KEY := SString todayDate]> (storage w))))
    (document w) (pending w)
    (saves w ++ [ {[ SPILLOVER_TASKS_KEY := SArray (List.filter incomplete l);
                     TODAY_TASKS_KEY := SArray [];
                     LAST_OPEN_DATE_KEY := SString todayDate ]} ]).

(** The world with one more array in memory. *)
Definition allocated (l : list Task) (w : World) : World :=
  mkWorld (heap w ++ [l]) (storage w) (document w) (pending w) (saves w).

(** The item that [renderLists] appends for a task of the sorted copy of the
    list [l], held by the array [v]. *)
Definition render_item (isSpillover : bool) (v : Val) (l : list Task)
    (task : Task) : list Element :=
  match findIndex (same_id task) l with
  | Some i => [createTaskElement task v i isSpillover]
  | None => []
  end.

Definition items (isSpillover : bool) (v : Val) (l : list Task) : list Element :=
  flat_map (render_item isSpillover v l) (sort_by by_completed l).

(** The world after [renderLists] for a today array [a] holding [l] and a
    spillover array [b] holding [m]. *)
Definition rendered (a b : loc) (l m : list Task) (w : World) : World :=
  mkWorld (heap w ++ [sort_by by_completed l; sort_by by_completed m])
    (storage w)
    (mkDocument (items false (VArray a) l) (items true (VArray b) m)
       (0 <? length (sort_by by_completed m))
       (taskInput_value (document w)) (listeners_set (document w)))
    (pending w) (saves w).

(** The tasks shown in a list of the page, top to bottom. *)
Definition shown (els : list Element) : list Task := map el_task els.

(** Two runs in a row of a reconciliation [rec], on the current date
    [todayDate]: the first run leaves the date stored; the second run
    writes nothing, so that the storage is as the first run left it, and
    returns lists with the same tasks [lt] and [ls] as the first run
    returned. *)
Definition second_run_changes_nothing
    (rec : M (Val * Val)) (todayDate : string) (w : World) : Prop :=
  ∃ t1 s1 w1 t2 s2 w2 lt ls,
    rec w = Some ((VArray t1, VArray s1), w1)
    ∧ storage w1 !! LAST_OPEN_DATE_KEY = Some (SString todayDate)
    ∧ heap w1 !! t1 = Some lt ∧ heap w1 !! s1 = Some ls
    ∧ rec w1 = Some ((VArray t2, VArray s2), w2)
    ∧ storage w2 = storage w1 ∧ saves w2 = saves w1
    ∧ heap w2 !! t2 = Some lt ∧ heap w2 !! s2 = Some ls.

(** A run of [add] that stores the today list [before] with the task [t]
    appended, in one write of that key alone, and starts [initialize]. *)
Definition appends_task
    (add : M unit) (t : Task) (before : list Task) (w : World) : Prop :=
  ∃ w' today',
    add w = Some (tt, w')
    ∧ storage w' !! TODAY_TASKS_KEY = Some (SArray today')
    ∧ today' = before ++ [t]
    ∧ length today' = S (length before)
    ∧ (∀ k, k ≠ TODAY_TASKS_KEY → storage w' !! k = storage w !! k)
    ∧ saves w' = saves w ++ [ {[ TODAY_TASKS_KEY := SArray today' ]} ]
    ∧ pending w' = pending w ++ [JInitialize].

(** The order of display of a list. *)
Definition partitioned (l : list Task) : list Task :=
  List.filter incomplete l ++ List.filter completed l.

(** *** Sessions *)

(** The list stored under a key, empty if none is stored. *)
Definition stored_list (key : string) (w : World) : list Task :=
  match storage w !! key with
  | Some (SArray l) => l
  | _ => []
  end.

(** Under the two list keys the storage holds arrays, if anything. *)
Definition lists_stored (w : World) : Prop :=
  (∃ o, storage w !! TODAY_TASKS_KEY = SArray <$> o)
  ∧ (∃ o, storage w !! SPILLOVER_TASKS_KEY = SArray <$> o).

(** No two tasks of a stored list have the same id. *)
Definition ids_distinct (w : World) : Prop :=
  NoDup (map id (stored_list TODAY_TASKS_KEY w))
  ∧ NoDup (map id (stored_list SPILLOVER_TASKS_KEY w)).

(** The items of the page hold arrays with the stored lists, and indices
    inside them. *)
Definition page_in_sync (w : World) : Prop :=
  ∀ isSpillover e,
    e ∈ items_of isSpillover (document w) →
    ∃ a, el_listArray e = VArray a
         ∧ el_isSpillover e = isSpillover
         ∧ heap w !! a = Some (stored_list (key_of isSpillover) w)
         ∧ el_index e < length (stored_list (key_of isSpillover) w).

(** The state between two events. *)
Definition settled (w : World) : Prop :=
  lists_stored w ∧ ids_distinct w ∧ page_in_sync w ∧ pending w = [].

(** The clock gives [addTask] a number that no task of the stored today
    list has as id. *)
Definition fresh_for (ev : Event) (w : World) : Prop :=
  match ev with
  | Add _ now => Some now ∉ map id (stored_list TODAY_TASKS_KEY w)
  | _ => True
  end.

(** The worlds that sessions with such a clock lead to, from the empty
    storage. *)
Inductive reachable : World → Prop :=
  | reachable_first todayDate w :
      open_popup todayDate fresh_world = Some (tt, w) → reachable w
  | reachable_step todayDate ev w w' :
      reachable w → fresh_for ev w →
      react todayDate ev w = Some (tt, w') → reachable w'.

(** *** The page of [popup.js] *)

(** The items that [Popup.renderLists] makes for the list [l] held by the
    array [v]: one for each task, in the order of the list, with the
    position of the task as index. *)
Definition Popup_items (isSpillover : bool) (v : Val) (l : list Task) : list Element :=
  imap (λ k t, Popup.createTaskElement t v k isSpillover) l.

(** The world after [Popup.renderLists] for a today array [a] holding [l]
    and a spillover array [b] holding [m]. *)
Definition Popup_rendered (a b : loc) (l m : list Task) (w : World) : World :=
  mkWorld (heap w) (storage w)
    (mkDocument (Popup_items false (VArray a) l) (Popup_items true (VArray b) m)
       (0 <? length m)
       (taskInput_value (document w)) (listeners_set (document w)))
    (pending w) (saves w).
(** The item of the task 2 of the order example: the task is at index 1 of
    the array. *)
Definition example_item : Element :=
  mkElement (mkTask (Some 2%Z) "two" false) (VArray 0) 1 false.

(** *** Texts *)

(** The first character of a text is white space; the last one is. *)
Definition first_is_ws (s : string) : bool :=
  match s with
  | EmptyString => false
  | String c _ => isWhiteSpace c
  end.

Fixpoint last_is_ws (s : string) : bool :=
  match s with
  | EmptyString => false
  | String c EmptyString => isWhiteSpace c
  | String _ s' => last_is_ws s'
  end.

(** A task as [addTask] of the later revision makes them: with an id, and
    with a text that is not empty and has no white space at its ends. *)
Definition well_formed_task (t : Task) : Prop :=
  is_Some (id t)
  ∧ text t ≠ ""
  ∧ first_is_ws (text t) = false
  ∧ last_is_ws (text t) = false.

(** The world after the popup is opened for the first time, on 2024-01-02. *)
Definition opened_world : World :=
  Eval vm_compute in
    match open_popup "2024-01-02" fresh_world with
    | Some (_, w) => w
    | None => fresh_world
    end.

(** The world after a short session on that day: a task is added, it is
    checked, and a second task is added. *)
Definition busy_world : World :=
  Eval vm_compute in
    match (react "2024-01-02" (Add "  a " 1700000000000) ;;
           react "2024-01-02" (Toggle false 0 true) ;;
           react "2024-01-02" (Add "b" 1700000000001)) opened_world with
    | Some (_, w) => w
    | None => opened_world
    end.

(** * Properties *)

(** ** Reasoning about the monad *)

Lemma bind_Some {A B} (m : M A) (k : A → M B) w r :
  bind m k w = Some r ↔ ∃ x w', m w = Some (x, w') ∧ k x w' = Some r.
Proof.
  unfold bind. destruct (m w) as [[x w']|]; split.
  - eauto.
  - by intros (? & ? & [= <- <-] & ?).
  - done.
  - by intros (? & ? & ? & ?).
Qed.

Lemma bind_eq {A B} (m : M A) (k : A → M B) w x w' :
  m w = Some (x, w') → bind m k w = k x w'.
Proof. unfold bind. by intros ->. Qed.

Lemma saveData_eq data w :
  saveData data w
  = Some (tt, mkWorld (heap w) (omap (serialize (heap w)) data ∪ storage w)
                (document w) (pending w)
                (saves w ++ [omap (serialize (heap w)) data])).
Proof. reflexivity. Qed.

(** A write of one key. *)
Lemma saveData_one k v x w :
  serialize (heap w) v = Some x →
  saveData {[ k := v ]} w
  = Some (tt, mkWorld (heap w) (<[k := x]> (storage w)) (document w) (pending w)
                (saves w ++ [ {[ k := x ]} ])).
Proof.
  intros H. rewrite saveData_eq, (omap_singleton_Some _ _ _ _ H).
  by rewrite <- insert_union_singleton_l.
Qed.

Lemma lookup_alloc_new (h : list (list Task)) l : (h ++ [l]) !! length h = Some l.
Proof. by rewrite lookup_app_r, Nat.sub_diag. Qed.

Lemma lookup_alloc_old (h : list (list Task)) l a x :
  h !! a = Some x → (h ++ [l]) !! a = Some x.
Proof. intros H. by rewrite lookup_app_l by (by eapply lookup_lt_Some). Qed.

Lemma insert_alloc_new (h : list (list Task)) l l' :
  <[length h := l']> (h ++ [l]) = h ++ [l'].
Proof. by rewrite insert_app_r_alt, Nat.sub_diag. Qed.

Lemma elements_of_eq a l w :
  heap w !! a = Some l → elements_of (VArray a) w = Some (l, w).
Proof. intros H. unfold elements_of, bind, get_world. simpl. by rewrite H. Qed.

(** Lookups in a storage built by insertions under the three keys. *)
Ltac storage_lookup :=
  repeat (rewrite lookup_insert_ne by done);
  rewrite ?lookup_insert_eq, ?lookup_singleton_eq;
  try (rewrite lookup_singleton_ne by done);
  try done.

(** ** Reading the storage *)

Lemma getData_list key (stored : option (list Task)) w :
  storage w !! key = SArray <$> stored →
  getData key w
  = Some (VArray (length (heap w)), allocated (default [] stored) w).
Proof.
  intros H. unfold getData, storage_get, bind, get_world. simpl. rewrite H.
  by destruct stored.
Qed.

Lemma getData_string key s w :
  storage w !! key = Some (SString s) → s ≠ "" →
  getData key w = Some (VString s, w).
Proof.
  intros H Hs. unfold getData, storage_get, bind, get_world. simpl. rewrite H.
  simpl. unfold or_empty_array. simpl. by rewrite bool_decide_eq_false_2.
Qed.

(** ** The rollover *)

Lemma handleDailyRollover_new_day_eq todayDate lastOpenDate a l w :
  heap w !! a = Some l →
  truthy lastOpenDate = true →
  lastOpenDate ≠ VString todayDate →
  handleDailyRollover todayDate (VArray a) lastOpenDate w
  = Some ((VArray (S (length (heap w))), VArray (length (heap w))),
          rolled_over todayDate l w).
Proof.
  intros Ha Ht Hne. unfold handleDailyRollover, strict_ne.
  rewrite Ht, bool_decide_eq_false_2 by done. simpl.
  unfold array_filter.
  erewrite bind_eq.
  2:{ erewrite bind_eq by (by apply elements_of_eq). reflexivity. }
  erewrite bind_eq by reflexivity.
  rewrite (bind_eq _ _ _ _ _ (saveData_eq _ _)). unfold ret, rolled_over. simpl.
  rewrite length_app, Nat.add_1_r, <- (assoc_L (++)). simpl.
  assert (H1 : (heap w ++ [List.filter incomplete l; []]) !! length (heap w)
               = Some (List.filter incomplete l))
    by (by rewrite lookup_app_r, Nat.sub_diag).
  assert (H2 : (heap w ++ [List.filter incomplete l; []]) !! S (length (heap w))
               = Some []).
  { rewrite lookup_app_r by lia. by replace (S _ - _) with 1 by lia. }
  erewrite !omap_insert_Some, omap_singleton_Some;
    [|reflexivity|simpl; by rewrite H2|simpl; by rewrite H1].
  by rewrite <- !insert_union_l, <- insert_union_singleton_l.
Qed.

(** The rollover of [popup.js] is the same function: the two revisions
    differ in where [|| []] is applied to what the storage returns. *)
Lemma Popup_handleDailyRollover_eq todayDate todayTasks lastOpenDate :
  Popup.handleDailyRollover todayDate todayTasks lastOpenDate
  = handleDailyRollover todayDate todayTasks lastOpenDate.
Proof. reflexivity. Qed.

(** C1. When the last open date is present and is not the current date,
    [handleDailyRollover], in both revisions, returns a spillover array
    holding exactly the incomplete tasks of the today array, in their order,
    and an empty today array; it stores these two lists and the current
    date in one write, whatever the spillover list stored before was. *)
Theorem handleDailyRollover_new_day todayDate lastOpenDate a l w :
  heap w !! a = Some l →
  truthy lastOpenDate = true →
  lastOpenDate ≠ VString todayDate →
  ∃ t' s' w',
    handleDailyRollover todayDate (VArray a) lastOpenDate w
      = Some ((VArray t', VArray s'), w')
    ∧ heap w' !! s' = Some (List.filter incomplete l)
    ∧ heap w' !! t' = Some []
    ∧ storage w' !! SPILLOVER_TASKS_KEY = Some (SArray (List.filter incomplete l))
    ∧ storage w' !! TODAY_TASKS_KEY = Some (SArray [])
    ∧ storage w' !! LAST_OPEN_DATE_KEY = Some (SString todayDate)
    ∧ (∀ k, k ≠ SPILLOVER_TASKS_KEY → k ≠ TODAY_TASKS_KEY →
            k ≠ LAST_OPEN_DATE_KEY → storage w' !! k = storage w !! k)
    ∧ saves w'
      = saves w ++ [ {[ SPILLOVER_TASKS_KEY := SArray (List.filter incomplete l);
                        TODAY_TASKS_KEY := SArray [];
                        LAST_OPEN_DATE_KEY := SString todayDate ]} ]
    ∧ Popup.handleDailyRollover todayDate (VArray a) lastOpenDate w
      = Some ((VArray t', VArray s'), w').
Proof.
  intros Ha Ht Hne. do 3 eexists.
  split; [by apply handleDailyRollover_new_day_eq|].
  rewrite Popup_handleDailyRollover_eq.
  rewrite (handleDailyRollover_new_day_eq _ _ _ _ _ Ha Ht Hne). simpl.
  split_and!; [| | | | | |done|done].
  - by rewrite lookup_app_r, Nat.sub_diag.
  - rewrite lookup_app_r by lia. by replace (S _ - _) with 1 by lia.
  - storage_lookup.
  - storage_lookup.
  - storage_lookup.
  - intros k ???. storage_lookup.
Qed.

Lemma handleDailyRollover_new_day_witness :
  ∃ t' s' w',
    handleDailyRollover "2024-01-02" (VArray 0) (VString "2024-01-01") example_world
      = Some ((VArray t', VArray s'), w')
    ∧ heap w' !! s' = Some (List.filter incomplete example_tasks)
    ∧ heap w' !! t' = Some []
    ∧ storage w' !! SPILLOVER_TASKS_KEY
      = Some (SArray (List.filter incomplete example_tasks))
    ∧ storage w' !! TODAY_TASKS_KEY = Some (SArray [])
    ∧ storage w' !! LAST_OPEN_DATE_KEY = Some (SString "2024-01-02")
    ∧ (∀ k, k ≠ SPILLOVER_TASKS_KEY → k ≠ TODAY_TASKS_KEY →
            k ≠ LAST_OPEN_DATE_KEY → storage w' !! k = storage example_world !! k)
    ∧ saves w'
      = saves example_world
        ++ [ {[ SPILLOVER_TASKS_KEY := SArray (List.filter incomplete example_tasks);
                TODAY_TASKS_KEY := SArray [];
                LAST_OPEN_DATE_KEY := SString "2024-01-02" ]} ]
    ∧ Popup.handleDailyRollover "2024-01-02" (VArray 0) (VString "2024-01-01")
        example_world
      = Some ((VArray t', VArray s'), w').
Proof.
  apply (handleDailyRollover_new_day "2024-01-02" (VString "2024-01-01")
           0 example_tasks example_world).
  - reflexivity.
  - reflexivity.
  - discriminate.
Defined.

(** The rollover of the example: the tasks 2 and 3 spill over, task 1 is
    dropped. *)
Example rollover_example :
  List.filter incomplete example_tasks
  = [ mkTask (Some 2%Z) "two" false; mkTask (Some 3%Z) "three" false ].
Proof. reflexivity. Qed.

Lemma filter_incomplete_sublist l : sublist (List.filter incomplete l) l.
Proof.
  induction l as [|t l IH]; simpl; [constructor|].
  destruct (incomplete t); by constructor.
Qed.

Lemma filter_incomplete_Forall l :
  Forall (λ t, completed t = false) (List.filter incomplete l).
Proof.
  induction l as [|t l IH]; simpl; [constructor|].
  destruct (incomplete t) eqn:E; [|done].
  constructor; [|done]. unfold incomplete in E. by destruct (completed t).
Qed.

(** C10. After a rollover every task of the spillover list, in memory and
    in the storage, has [completed = false] and is a task of the previous
    today list, the same record: the spillover list is a sublist of the
    today list. *)
Theorem rollover_transfers_tasks_unmodified todayDate lastOpenDate a l w :
  heap w !! a = Some l →
  truthy lastOpenDate = true →
  lastOpenDate ≠ VString todayDate →
  ∃ t' s' w' spill,
    handleDailyRollover todayDate (VArray a) lastOpenDate w
      = Some ((VArray t', VArray s'), w')
    ∧ heap w' !! s' = Some spill
    ∧ storage w' !! SPILLOVER_TASKS_KEY = Some (SArray spill)
    ∧ sublist spill l
    ∧ Forall (λ t, completed t = false) spill
    ∧ (∀ t, t ∈ spill → t ∈ l)
    ∧ Popup.handleDailyRollover todayDate (VArray a) lastOpenDate w
      = Some ((VArray t', VArray s'), w').
Proof.
  intros Ha Ht Hne. do 3 eexists. exists (List.filter incomplete l).
  split; [by apply handleDailyRollover_new_day_eq|].
  rewrite Popup_handleDailyRollover_eq.
  rewrite (handleDailyRollover_new_day_eq _ _ _ _ _ Ha Ht Hne). simpl.
  split_and!; [| | | | |done].
  - by rewrite lookup_app_r, Nat.sub_diag.
  - by rewrite lookup_insert_eq.
  - apply filter_incomplete_sublist.
  - apply filter_incomplete_Forall.
  - intros t Hin. eapply elem_of_sublist; [done|apply filter_incomplete_sublist].
Qed.

Lemma rollover_transfers_tasks_unmodified_witness :
  ∃ t' s' w' spill,
    handleDailyRollover "2024-01-02" (VArray 0) (VString "2024-01-01") example_world
      = Some ((VArray t', VArray s'), w')
    ∧ heap w' !! s' = Some spill
    ∧ storage w' !! SPILLOVER_TASKS_KEY = Some (SArray spill)
    ∧ sublist spill example_tasks
    ∧ Forall (λ t, completed t = false) spill
    ∧ (∀ t, t ∈ spill → t ∈ example_tasks)
    ∧ Popup.handleDailyRollover "2024-01-02" (VArray 0) (VString "2024-01-01")
        example_world
      = Some ((VArray t', VArray s'), w').
Proof.
  apply (rollover_transfers_tasks_unmodified "2024-01-02" (VString "2024-01-01")
           0 example_tasks example_world).
  - reflexivity.
  - reflexivity.
  - discriminate.
Defined.

(** C2. When the last open date is absent, [handleDailyRollover] stores the
    current date and writes nothing else, leaves the two stored lists and
    the arrays in memory as they are, and returns the today value it was
    given together with a copy of the stored spillover list, an empty array
    if none is stored. *)
Theorem handleDailyRollover_first_run todayDate todayTasks stored w :
  storage w !! SPILLOVER_TASKS_KEY = SArray <$> stored →
  ∃ s' w',
    handleDailyRollover todayDate todayTasks VUndefined w
      = Some ((todayTasks, VArray s'), w')
    ∧ heap w' !! s' = Some (default [] stored)
    ∧ storage w' !! LAST_OPEN_DATE_KEY = Some (SString todayDate)
    ∧ storage w' !! TODAY_TASKS_KEY = storage w !! TODAY_TASKS_KEY
    ∧ storage w' !! SPILLOVER_TASKS_KEY = storage w !! SPILLOVER_TASKS_KEY
    ∧ saves w' = saves w ++ [ {[ LAST_OPEN_DATE_KEY := SString todayDate ]} ]
    ∧ (∀ a l, heap w !! a = Some l → heap w' !! a = Some l).
Proof.
  intros Hs. unfold handleDailyRollover. simpl.
  erewrite bind_eq by (by apply saveData_one).
  erewrite bind_eq by (apply getData_list; simpl; by storage_lookup).
  unfold ret. do 2 eexists. split; [reflexivity|]. simpl.
  split_and!; [| | | |done|].
  - by rewrite lookup_app_r, Nat.sub_diag.
  - storage_lookup.
  - storage_lookup.
  - storage_lookup.
  - intros a l. apply lookup_alloc_old.
Qed.

Lemma handleDailyRollover_first_run_witness :
  ∃ s' w',
    handleDailyRollover "2024-01-02" (VArray 0) VUndefined example_world
      = Some ((VArray 0, VArray s'), w')
    ∧ heap w' !! s' = Some []
    ∧ storage w' !! LAST_OPEN_DATE_KEY = Some (SString "2024-01-02")
    ∧ storage w' !! TODAY_TASKS_KEY = storage example_world !! TODAY_TASKS_KEY
    ∧ storage w' !! SPILLOVER_TASKS_KEY
      = storage example_world !! SPILLOVER_TASKS_KEY
    ∧ saves w'
      = saves example_world ++ [ {[ LAST_OPEN_DATE_KEY := SString "2024-01-02" ]} ]
    ∧ (∀ a l, heap example_world !! a = Some l → heap w' !! a = Some l).
Proof.
  apply (handleDailyRollover_first_run "2024-01-02" (VArray 0) None example_world).
  reflexivity.
Defined.

(** ** Adding a task *)

Lemma trimStart_onlyWhiteSpace s : onlyWhiteSpace s = true → trimStart s = "".
Proof.
  induction s as [|c s IH]; simpl; [done|].
  intros [Hc Hs]%andb_prop. rewrite Hc. by apply IH.
Qed.

Lemma trim_onlyWhiteSpace s : onlyWhiteSpace s = true → trim s = "".
Proof. intros H. unfold trim. by rewrite trimStart_onlyWhiteSpace. Qed.

Lemma trimEnd_empty s : trimEnd s = "" → onlyWhiteSpace s = true.
Proof.
  induction s as [|c s IH]; simpl; [done|].
  destruct (trimEnd s); [|done].
  destruct (isWhiteSpace c); [|done]. intros _. by rewrite IH.
Qed.

Lemma onlyWhiteSpace_trimStart s :
  onlyWhiteSpace (trimStart s) = true → onlyWhiteSpace s = true.
Proof.
  induction s as [|c s IH]; simpl; [done|].
  destruct (isWhiteSpace c) eqn:E; simpl; [done|]. by rewrite E.
Qed.

(** The trimmed text is empty exactly for the texts made of white space. *)
Lemma trim_empty_iff s : trim s = "" ↔ onlyWhiteSpace s = true.
Proof.
  split; [|apply trim_onlyWhiteSpace].
  intros H. by apply onlyWhiteSpace_trimStart, trimEnd_empty.
Qed.

Lemma addTask_empty_trim now w :
  trim (taskInput_value (document w)) = "" → addTask now w = Some (tt, w).
Proof. intros H. unfold addTask, bind, get_world. simpl. by rewrite H. Qed.

(** C5. With a text field that is empty or holds white space only,
    [addTask], in both revisions, returns without an error and changes nothing: no task is
    made, the storage is not written, no call is started. *)
Theorem addTask_blank_text now w :
  onlyWhiteSpace (taskInput_value (document w)) = true →
  addTask now w = Some (tt, w) ∧ Popup.addTask w = Some (tt, w).
Proof.
  intros H%trim_onlyWhiteSpace. split; [by apply addTask_empty_trim|].
  unfold Popup.addTask, bind, get_world. simpl. by rewrite H.
Qed.

Lemma addTask_blank_text_witness :
  addTask 5 blank_world = Some (tt, blank_world)
  ∧ Popup.addTask blank_world = Some (tt, blank_world).
Proof.
  apply (addTask_blank_text 5 blank_world).
  reflexivity.
Defined.

Lemma array_push_eq a l t w :
  heap w !! a = Some l →
  array_push (VArray a) t w
  = Some (tt, mkWorld (<[a := l ++ [t]]> (heap w)) (storage w) (document w)
                (pending w) (saves w)).
Proof.
  intros H. unfold array_push, elements_of, bind, get_world. simpl.
  by rewrite H.
Qed.

(** The world when [addTask] has returned, for the stored today list [l]
    and the new task [t]. *)
Lemma addTask_eq now stored w :
  trim (taskInput_value (document w)) ≠ "" →
  storage w !! TODAY_TASKS_KEY = SArray <$> stored →
  let t := mkTask (Some now) (trim (taskInput_value (document w))) false in
  addTask now w
  = Some (tt, mkWorld (heap w ++ [default [] stored ++ [t]])
                (<[TODAY_TASKS_KEY := SArray (default [] stored ++ [t])]> (storage w))
                (mkDocument (taskList (document w)) (spilloverList (document w))
                   (spilloverSection_display (document w)) ""
                   (listeners_set (document w)))
                (pending w ++ [JInitialize])
                (saves w ++ [ {[ TODAY_TASKS_KEY := SArray (default [] stored ++ [t]) ]} ])).
Proof.
  intros Ht Hs t. unfold addTask. unfold bind at 1. simpl.
  rewrite bool_decide_eq_false_2 by done. simpl.
  rewrite (bind_eq _ _ _ _ _ (getData_list _ _ _ Hs)).
  erewrite bind_eq; [|apply array_push_eq; apply lookup_alloc_new].
  simpl. rewrite insert_alloc_new.
  erewrite bind_eq
    by (apply saveData_one; simpl; by rewrite lookup_alloc_new).
  reflexivity.
Qed.

Lemma Popup_addTask_eq stored w :
  trim (taskInput_value (document w)) ≠ "" →
  storage w !! TODAY_TASKS_KEY = SArray <$> stored →
  let t := mkTask None (trim (taskInput_value (document w))) false in
  Popup.addTask w
  = Some (tt, mkWorld (heap w ++ [default [] stored ++ [t]])
                (<[TODAY_TASKS_KEY := SArray (default [] stored ++ [t])]> (storage w))
                (mkDocument (taskList (document w)) (spilloverList (document w))
                   (spilloverSection_display (document w)) ""
                   (listeners_set (document w)))
                (pending w ++ [JInitialize])
                (saves w ++ [ {[ TODAY_TASKS_KEY := SArray (default [] stored ++ [t]) ]} ])).
Proof.
  intros Ht Hs t. unfold Popup.addTask. unfold bind at 1. simpl.
  rewrite bool_decide_eq_false_2 by done. simpl.
  change (do v <~ Popup.getData TODAY_TASKS_KEY; or_empty_array v)
    with (getData TODAY_TASKS_KEY).
  rewrite (bind_eq _ _ _ _ _ (getData_list _ _ _ Hs)).
  erewrite bind_eq; [|apply array_push_eq; apply lookup_alloc_new].
  simpl. rewrite insert_alloc_new.
  erewrite bind_eq
    by (apply saveData_one; simpl; by rewrite lookup_alloc_new).
  reflexivity.
Qed.

(** C6. With a text field whose trimmed text is not empty, [addTask]
    stores the today list with one task more, at the end: the new task has
    the trimmed text and [completed = false], the tasks stored before keep
    their values and order, and no other key of the storage, the spillover
    list among them, is written.  The new task has the value of
    [Date.now()] as id; in [popup.js] it has no id. *)
Theorem addTask_appends_one now stored w :
  trim (taskInput_value (document w)) ≠ "" →
  storage w !! TODAY_TASKS_KEY = SArray <$> stored →
  appends_task (addTask now)
    (mkTask (Some now) (trim (taskInput_value (document w))) false)
    (default [] stored) w
  ∧ appends_task Popup.addTask
      (mkTask None (trim (taskInput_value (document w))) false)
      (default [] stored) w.
Proof.
  intros Ht Hs. split.
  - do 2 eexists. split; [by apply addTask_eq|]. simpl.
    split_and!;
      [by rewrite lookup_insert_eq|done|rewrite length_app; simpl; lia| |done|done].
    intros k Hk. by rewrite lookup_insert_ne.
  - do 2 eexists. split; [by apply Popup_addTask_eq|]. simpl.
    split_and!;
      [by rewrite lookup_insert_eq|done|rewrite length_app; simpl; lia| |done|done].
    intros k Hk. by rewrite lookup_insert_ne.
Qed.

Lemma addTask_appends_one_witness :
  appends_task (addTask 1700000000000)
    (mkTask (Some 1700000000000%Z) "buy milk" false) example_tasks typing_world
  ∧ appends_task Popup.addTask
      (mkTask None "buy milk" false) example_tasks typing_world.
Proof.
  apply (addTask_appends_one 1700000000000 (Some example_tasks) typing_world).
  - discriminate.
  - reflexivity.
Defined.

(** ** The order of display *)

Lemma insert_by_incomplete x l :
  completed x = false → insert_by by_completed x l = x :: l.
Proof.
  intros Hx. destruct l as [|y l]; simpl; [done|].
  unfold by_completed. rewrite Hx. by destruct (completed y).
Qed.

Lemma insert_by_completed x l1 l2 :
  completed x = true →
  Forall (λ t, completed t = false) l1 →
  Forall (λ t, completed t = true) l2 →
  insert_by by_completed x (l1 ++ l2) = l1 ++ x :: l2.
Proof.
  intros Hx H1 H2. induction H1 as [|y l1 Hy _ IH]; simpl.
  - destruct H2 as [|y l2 Hy _]; simpl; [done|].
    unfold by_completed. by rewrite Hx, Hy.
  - unfold by_completed at 1. rewrite Hx, Hy. simpl. by rewrite IH.
Qed.

Lemma filter_completed_Forall l :
  Forall (λ t, completed t = true) (List.filter completed l).
Proof.
  induction l as [|t l IH]; simpl; [constructor|].
  destruct (completed t) eqn:E; [by constructor|done].
Qed.

(** The sort of [renderLists] is the stable partition: the incomplete
    tasks in their order, then the completed tasks in their order. *)
Lemma sort_by_completed l :
  sort_by by_completed l = List.filter incomplete l ++ List.filter completed l.
Proof.
  induction l as [|t l IH]; simpl; [done|]. fold (sort_by by_completed l).
  rewrite IH. destruct (completed t) eqn:E.
  - replace (incomplete t) with false by (unfold incomplete; by rewrite E).
    apply insert_by_completed;
      [done|apply filter_incomplete_Forall|apply filter_completed_Forall].
  - replace (incomplete t) with true by (unfold incomplete; by rewrite E).
    by apply insert_by_incomplete.
Qed.

Lemma findIndex_Some p l i :
  findIndex p l = Some i →
  ∃ l1 t l2, l = l1 ++ t :: l2 ∧ length l1 = i ∧ p t = true
             ∧ Forall (λ u, p u = false) l1.
Proof.
  revert i. induction l as [|u l IH]; intros i; simpl; [done|].
  destruct (p u) eqn:E.
  - intros [= <-]. by exists [], u, l.
  - destruct (findIndex p l) as [j|]; [|done]. intros [= <-].
    destruct (IH j eq_refl) as (l1 & t & l2 & -> & <- & Hp & Hl1).
    exists (u :: l1), t, l2. repeat split; [done|]. by constructor.
Qed.

Lemma findIndex_None p l :
  findIndex p l = None → Forall (λ u, p u = false) l.
Proof.
  induction l as [|u l IH]; simpl; [constructor|].
  destruct (p u) eqn:E; [done|].
  destruct (findIndex p l); [done|]. constructor; auto.
Qed.

Lemma findIndex_elem p l t :
  t ∈ l → p t = true → is_Some (findIndex p l).
Proof.
  intros Hin Hp. destruct (findIndex p l) eqn:E; [done|].
  apply findIndex_None in E. rewrite Forall_forall in E.
  specialize (E t Hin). congruence.
Qed.

Lemma same_id_refl t : same_id t t = true.
Proof. unfold same_id. by apply bool_decide_eq_true_2. Qed.

(** Every task of the list gets an item: [findIndex] finds its id. *)
Lemma shown_flat_map isSp v l ts :
  (∀ t, t ∈ ts → t ∈ l) →
  shown (flat_map (render_item isSp v l) ts) = ts.
Proof.
  induction ts as [|t ts IH]; intros Hin; simpl; [done|].
  unfold shown in *. rewrite map_app, IH by (intros; apply Hin; by right).
  unfold render_item.
  destruct (findIndex_elem (same_id t) l t) as [i ->];
    [apply Hin; by left|apply same_id_refl|done].
Qed.

Lemma elem_of_filter_bool (p : Task → bool) l t :
  t ∈ List.filter p l ↔ t ∈ l ∧ p t = true.
Proof. rewrite !list_elem_of_In. apply filter_In. Qed.

Lemma shown_items isSp v l :
  shown (items isSp v l) = List.filter incomplete l ++ List.filter completed l.
Proof.
  unfold items. rewrite shown_flat_map; [apply sort_by_completed|].
  intros t. rewrite sort_by_completed, elem_of_app, !elem_of_filter_bool.
  tauto.
Qed.

(** ** Rendering *)

Lemma render_step_today a l t w :
  heap w !! a = Some l →
  (do originalIndex <~ array_findIndex (same_id t) (VArray a);
   match originalIndex with
   | Some i => taskList_appendChild (createTaskElement t (VArray a) i false)
   | None => ret tt
   end) w
  = Some (tt, mkWorld (heap w) (storage w)
                (mkDocument
                   (taskList (document w) ++ render_item false (VArray a) l t)
                   (spilloverList (document w))
                   (spilloverSection_display (document w))
                   (taskInput_value (document w)) (listeners_set (document w)))
                (pending w) (saves w)).
Proof.
  destruct w as [h s [tl sl sd ti ls] p sv]. simpl. intros Ha.
  unfold array_findIndex, elements_of. cbv [bind get_world ret]. simpl.
  rewrite Ha. unfold render_item.
  destruct (findIndex (same_id t) l); simpl; [done|by rewrite app_nil_r].
Qed.

Lemma render_step_spillover b m t w :
  heap w !! b = Some m →
  (do originalIndex <~ array_findIndex (same_id t) (VArray b);
   match originalIndex with
   | Some i => spilloverList_appendChild (createTaskElement t (VArray b) i true)
   | None => ret tt
   end) w
  = Some (tt, mkWorld (heap w) (storage w)
                (mkDocument (taskList (document w))
                   (spilloverList (document w) ++ render_item true (VArray b) m t)
                   (spilloverSection_display (document w))
                   (taskInput_value (document w)) (listeners_set (document w)))
                (pending w) (saves w)).
Proof.
  destruct w as [h s [tl sl sd ti ls] p sv]. simpl. intros Hb.
  unfold array_findIndex, elements_of. cbv [bind get_world ret]. simpl.
  rewrite Hb. unfold render_item.
  destruct (findIndex (same_id t) m); simpl; [done|by rewrite app_nil_r].
Qed.

Lemma forEach_taskList a l ts w :
  heap w !! a = Some l →
  forEach (λ task,
      do originalIndex <~ array_findIndex (same_id task) (VArray a);
      match originalIndex with
      | Some i => taskList_appendChild (createTaskElement task (VArray a) i false)
      | None => ret tt
      end) ts w
  = Some (tt, mkWorld (heap w) (storage w)
                (mkDocument
                   (taskList (document w) ++ flat_map (render_item false (VArray a) l) ts)
                   (spilloverList (document w))
                   (spilloverSection_display (document w))
                   (taskInput_value (document w)) (listeners_set (document w)))
                (pending w) (saves w)).
Proof.
  revert w. induction ts as [|t ts IH]; intros w Ha; simpl.
  - unfold ret. rewrite app_nil_r. by destruct w as [? ? [] ? ?].
  - erewrite bind_eq by (by apply render_step_today).
    rewrite IH by done. simpl. by rewrite <- (assoc_L (++)).
Qed.

Lemma forEach_spilloverList b m ts w :
  heap w !! b = Some m →
  forEach (λ task,
      do originalIndex <~ array_findIndex (same_id task) (VArray b);
      match originalIndex with
      | Some i => spilloverList_appendChild (createTaskElement task (VArray b) i true)
      | None => ret tt
      end) ts w
  = Some (tt, mkWorld (heap w) (storage w)
                (mkDocument (taskList (document w))
                   (spilloverList (document w)
                    ++ flat_map (render_item true (VArray b) m) ts)
                   (spilloverSection_display (document w))
                   (taskInput_value (document w)) (listeners_set (document w)))
                (pending w) (saves w)).
Proof.
  revert w. induction ts as [|t ts IH]; intros w Hb; simpl.
  - unfold ret. rewrite app_nil_r. by destruct w as [? ? [] ? ?].
  - erewrite bind_eq by (by apply render_step_spillover).
    rewrite IH by done. simpl. by rewrite <- (assoc_L (++)).
Qed.

(** [v.slice().sort(cmp)] leaves [v] alone and makes one new array. *)
Lemma slice_sort_eq a l w :
  heap w !! a = Some l →
  (do c <~ array_slice (VArray a); array_sort by_completed c) w
  = Some (VArray (length (heap w)), allocated (sort_by by_completed l) w).
Proof.
  intros Ha. unfold array_slice, array_sort, elements_of, store_elements, write,
    alloc, bind, get_world, set_heap, ret. simpl. rewrite Ha. simpl.
  rewrite lookup_alloc_new. simpl. by rewrite insert_alloc_new.
Qed.

Lemma set_taskList_eq l w :
  set_taskList l w
  = Some (tt, mkWorld (heap w) (storage w)
                (mkDocument l (spilloverList (document w))
                   (spilloverSection_display (document w))
                   (taskInput_value (document w)) (listeners_set (document w)))
                (pending w) (saves w)).
Proof. reflexivity. Qed.

Lemma set_spilloverList_eq l w :
  set_spilloverList l w
  = Some (tt, mkWorld (heap w) (storage w)
                (mkDocument (taskList (document w)) l
                   (spilloverSection_display (document w))
                   (taskInput_value (document w)) (listeners_set (document w)))
                (pending w) (saves w)).
Proof. reflexivity. Qed.

Lemma set_spilloverSection_display_eq b w :
  set_spilloverSection_display b w
  = Some (tt, mkWorld (heap w) (storage w)
                (mkDocument (taskList (document w)) (spilloverList (document w)) b
                   (taskInput_value (document w)) (listeners_set (document w)))
                (pending w) (saves w)).
Proof. reflexivity. Qed.

Lemma renderLists_eq a b l m w :
  heap w !! a = Some l →
  heap w !! b = Some m →
  renderLists (VArray a) (VArray b) w = Some (tt, rendered a b l m w).
Proof.
  destruct w as [h s [tl sl sd ti ls] p sv]. simpl. intros Ha Hb.
  assert (Hlt : b < length h) by (by eapply lookup_lt_Some).
  unfold renderLists.
  erewrite bind_eq by apply set_taskList_eq.
  erewrite bind_eq by apply set_spilloverList_eq.
  erewrite bind_eq by (by apply slice_sort_eq). simpl.
  unfold array_forEach.
  erewrite bind_eq.
  2:{ erewrite bind_eq by (apply elements_of_eq, lookup_alloc_new).
      apply (forEach_taskList a l). by apply lookup_alloc_old. }
  simpl.
  erewrite bind_eq by (apply slice_sort_eq; simpl; by apply lookup_alloc_old).
  simpl.
  erewrite bind_eq by (apply elements_of_eq; simpl; apply lookup_alloc_new).
  simpl. unfold rendered, items, allocated. simpl.
  rewrite <- (assoc_L (++)). simpl.
  assert (Hsm : ∀ x, (h ++ [sort_by by_completed l; x])
                       !! length (h ++ [sort_by by_completed l]) = Some x).
  { intros x. rewrite length_app. simpl. rewrite lookup_app_r by lia.
    by replace (length h + 1 - length h) with 1 by lia. }
  destruct (sort_by by_completed m) as [|t ts] eqn:E.
  - reflexivity.
  - change (0 <? length (t :: ts)) with true. cbv iota.
    erewrite bind_eq by apply set_spilloverSection_display_eq.
    erewrite bind_eq by (apply elements_of_eq; simpl; apply Hsm).
    by rewrite (forEach_spilloverList b m)
      by (simpl; by rewrite lookup_app_l).
Qed.



(** C9. [renderLists] does not write to the storage, and the two arrays it
    is given, like every array there was, hold afterwards the elements they
    held before, in the same order: the sort works on a copy. *)
Theorem renderLists_keeps_lists a b l m w :
  heap w !! a = Some l →
  heap w !! b = Some m →
  ∃ w',
    renderLists (VArray a) (VArray b) w = Some (tt, w')
    ∧ storage w' = storage w
    ∧ saves w' = saves w
    ∧ heap w' !! a = Some l
    ∧ heap w' !! b = Some m
    ∧ (∀ c x, heap w !! c = Some x → heap w' !! c = Some x).
Proof.
  intros Ha Hb. eexists. split; [by apply renderLists_eq|]. simpl.
  assert (H : ∀ c x, heap w !! c = Some x →
              (heap w ++ [sort_by by_completed l; sort_by by_completed m]) !! c
              = Some x).
  { intros c x Hc. rewrite lookup_app_l; [done|by eapply lookup_lt_Some]. }
  split_and!; auto.
Qed.

Lemma renderLists_keeps_lists_witness :
  ∃ w',
    renderLists (VArray 0) (VArray 1) two_lists_world = Some (tt, w')
    ∧ storage w' = storage two_lists_world
    ∧ saves w' = saves two_lists_world
    ∧ heap w' !! 0 = Some order_example
    ∧ heap w' !! 1 = Some example_tasks
    ∧ (∀ c x, heap two_lists_world !! c = Some x → heap w' !! c = Some x).
Proof.
  apply (renderLists_keeps_lists 0 1 order_example example_tasks two_lists_world).
  - reflexivity.
  - reflexivity.
Defined.

(** ** Deleting a task *)

Lemma elem_of_sort_by_completed l t : t ∈ sort_by by_completed l ↔ t ∈ l.
Proof.
  rewrite sort_by_completed, elem_of_app, !elem_of_filter_bool.
  unfold incomplete. destruct (completed t); simpl; intuition.
Qed.

Lemma elem_of_items isSp v l e :
  e ∈ items isSp v l ↔
  ∃ t i, e = mkElement t v i isSp ∧ t ∈ l ∧ findIndex (same_id t) l = Some i.
Proof.
  unfold items. rewrite list_elem_of_In, in_flat_map. split.
  - intros (t & Ht & He). apply list_elem_of_In in Ht.
    rewrite elem_of_sort_by_completed in Ht.
    unfold render_item in He. destruct (findIndex (same_id t) l) as [i|] eqn:E.
    + destruct He as [<-|[]]. by exists t, i.
    + destruct He.
  - intros (t & i & -> & Ht & E). exists t. split.
    + apply list_elem_of_In. by apply elem_of_sort_by_completed.
    + unfold render_item. rewrite E. by left.
Qed.

Lemma splice_middle (l1 l2 : list Task) t :
  splice (length l1) 1 (l1 ++ t :: l2) = l1 ++ l2.
Proof.
  unfold splice. induction l1 as [|u l1 IH]; simpl; [by rewrite drop_0|].
  by rewrite IH.
Qed.


Lemma deleteBtn_click_eq c lst t i isSp w :
  heap w !! c = Some lst →
  deleteBtn_click (mkElement t (VArray c) i isSp) w
  = Some (tt, mkWorld (<[c := splice i 1 lst]> (heap w))
                (<[key_of isSp := SArray (splice i 1 lst)]> (storage w))
                (document w) (pending w ++ [JInitialize])
                (saves w ++ [ {[ key_of isSp := SArray (splice i 1 lst) ]} ])).
Proof.
  intros Hc. unfold deleteBtn_click, array_splice. simpl.
  erewrite bind_eq.
  2:{ erewrite bind_eq by (by apply elements_of_eq). reflexivity. }
  erewrite bind_eq.
  2:{ apply saveData_one. simpl.
      by rewrite list_lookup_insert_eq by (by eapply lookup_lt_Some). }
  reflexivity.
Qed.

Lemma NoDup_ids_middle (l1 l2 : list Task) t u :
  NoDup (map id (l1 ++ t :: l2)) → u ∈ l1 ++ l2 → id u ≠ id t.
Proof.
  rewrite map_app. simpl. intros (_ & H1 & [H2 _]%NoDup_cons)%NoDup_app.
  intros [Hu|Hu]%elem_of_app Heq.
  - apply (H1 (id u)); [by apply list_elem_of_fmap_2|]. rewrite Heq. by left.
  - apply H2. rewrite <- Heq. by apply list_elem_of_fmap_2.
Qed.

(** C7. Deleting by id, in the today list or in the spillover list as they
    were rendered: when a task of the list has the id, the first such task
    is removed from the array and from the stored list, the tasks before it
    and after it stay, in their order, and the list is the one key written;
    with distinct ids no task with the id is left.  When no task has the
    id, nothing changes and nothing is written. *)
Theorem delete_removes_one_task isSp taskId a b l m w w1 :
  heap w !! a = Some l →
  heap w !! b = Some m →
  renderLists (VArray a) (VArray b) w = Some (tt, w1) →
  ∃ w2,
    press_delete isSp taskId w1 = Some (tt, w2)
    ∧ ((∃ l1 t l2,
          (if isSp then m else l) = l1 ++ t :: l2
          ∧ id t = taskId
          ∧ (∀ u, u ∈ l1 → id u ≠ taskId)
          ∧ heap w2 !! (if isSp then b else a) = Some (l1 ++ l2)
          ∧ storage w2 !! key_of isSp = Some (SArray (l1 ++ l2))
          ∧ (∀ k, k ≠ key_of isSp → storage w2 !! k = storage w1 !! k)
          ∧ saves w2 = saves w1 ++ [ {[ key_of isSp := SArray (l1 ++ l2) ]} ]
          ∧ (NoDup (map id (l1 ++ t :: l2)) →
             ∀ u, u ∈ l1 ++ l2 → id u ≠ taskId))
       ∨ ((∀ u, u ∈ (if isSp then m else l) → id u ≠ taskId) ∧ w2 = w1)).
Proof.
  intros Ha Hb. rewrite (renderLists_eq a b l m) by done. intros [= <-].
  set (c := if isSp then b else a). set (lst := if isSp then m else l).
  assert (Hc : heap w !! c = Some lst) by (unfold c, lst; by destruct isSp).
  assert (Hit : items_of isSp (document (rendered a b l m w))
                = items isSp (VArray c) lst) by (unfold c, lst; by destruct isSp).
  unfold press_delete.
  rewrite (bind_eq get_world _ _ _ _ eq_refl). rewrite Hit.
  destruct (List.find _ _) as [e|] eqn:E.
  - apply find_some in E as [He Hid].
    apply list_elem_of_In, elem_of_items in He as (t & i & -> & Ht & Hi).
    simpl in Hid. unfold has_id in Hid. apply bool_decide_eq_true_1 in Hid.
    destruct (findIndex_Some _ _ _ Hi) as (l1 & t' & l2 & Hl & Hlen & Hsame & Hl1).
    unfold same_id in Hsame. apply bool_decide_eq_true_1 in Hsame.
    eexists. split.
    { apply deleteBtn_click_eq. simpl.
      rewrite lookup_app_l; [exact Hc|by eapply lookup_lt_Some]. }
    left. exists l1, t', l2. simpl.
    rewrite Hl, <- Hlen, splice_middle.
    split; [done|]. split; [congruence|]. split.
    { intros u Hu. rewrite Forall_forall in Hl1. specialize (Hl1 u Hu).
      unfold same_id in Hl1. apply bool_decide_eq_false_1 in Hl1. congruence. }
    split.
    { apply list_lookup_insert_eq. rewrite length_app.
      apply lookup_lt_Some in Hc. lia. }
    split; [by rewrite lookup_insert_eq|].
    split; [intros k Hk; by rewrite lookup_insert_ne|].
    split; [done|].
    intros Hnd u Hu Hidu. eapply (NoDup_ids_middle l1 l2 t' u); [done..|congruence].
  - eexists. split; [reflexivity|]. right. split; [|done].
    intros u Hu Hid.
    destruct (findIndex_elem (same_id u) lst u Hu (same_id_refl u)) as [i Hi].
    assert (He : mkElement u (VArray c) i isSp ∈ items isSp (VArray c) lst).
    { apply elem_of_items. by exists u, i. }
    apply list_elem_of_In in He.
    apply (find_none _ _ E) in He. simpl in He. unfold has_id in He.
    apply bool_decide_eq_false_1 in He. done.
Qed.

Lemma delete_removes_one_task_witness :
  ∃ w2,
    press_delete false (Some 2%Z)
      (rendered 0 1 order_example example_tasks two_lists_world) = Some (tt, w2)
    ∧ ((∃ l1 t l2,
          order_example = l1 ++ t :: l2
          ∧ id t = Some 2%Z
          ∧ (∀ u, u ∈ l1 → id u ≠ Some 2%Z)
          ∧ heap w2 !! 0 = Some (l1 ++ l2)
          ∧ storage w2 !! key_of false = Some (SArray (l1 ++ l2))
          ∧ (∀ k, k ≠ key_of false →
                  storage w2 !! k
                  = storage (rendered 0 1 order_example example_tasks
                               two_lists_world) !! k)
          ∧ saves w2
            = saves (rendered 0 1 order_example example_tasks two_lists_world)
              ++ [ {[ key_of false := SArray (l1 ++ l2) ]} ]
          ∧ (NoDup (map id (l1 ++ t :: l2)) →
             ∀ u, u ∈ l1 ++ l2 → id u ≠ Some 2%Z))
       ∨ ((∀ u, u ∈ order_example → id u ≠ Some 2%Z)
          ∧ w2 = rendered 0 1 order_example example_tasks two_lists_world)).
Proof.
  apply (delete_removes_one_task false (Some 2%Z) 0 1 order_example example_tasks
           two_lists_world
           (rendered 0 1 order_example example_tasks two_lists_world)).
  - reflexivity.
  - reflexivity.
  - reflexivity.
Defined.

(** ** Reconciling twice on one day *)

(** [getData] never returns a falsy value: it returns the stored string if
    that is not empty, and a new array otherwise. *)
Lemma getData_cases key w :
  (∃ s, s ≠ "" ∧ storage w !! key = Some (SString s)
        ∧ getData key w = Some (VString s, w))
  ∨ (∃ x, getData key w = Some (VArray (length (heap w)), allocated x w)
          ∧ ∀ s, s ≠ "" → storage w !! key ≠ Some (SString s)).
Proof.
  unfold getData, storage_get, bind, get_world. simpl.
  destruct (storage w !! key) as [[s|x]|] eqn:E; simpl.
  - destruct (decide (s = "")) as [->|Hs].
    + right. exists []. split; [done|]. intros s Hs [= <-]. done.
    + left. exists s. split; [done|]. split; [done|].
      unfold or_empty_array. simpl. by rewrite bool_decide_eq_false_2.
  - right. exists x. split; [done|]. by intros s _ [=].
  - right. exists []. split; [done|]. by intros s _.
Qed.

Lemma reconcile_same_day todayDate today spill w :
  todayDate ≠ "" →
  storage w !! TODAY_TASKS_KEY = SArray <$> today →
  storage w !! SPILLOVER_TASKS_KEY = SArray <$> spill →
  storage w !! LAST_OPEN_DATE_KEY = Some (SString todayDate) →
  reconcile todayDate w
  = Some ((VArray (length (heap w)), VArray (S (length (heap w)))),
          allocated (default [] spill) (allocated (default [] today) w)).
Proof.
  intros Hd Ht Hs Hl. unfold reconcile.
  rewrite (bind_eq _ _ _ _ _ (getData_list _ _ _ Ht)).
  erewrite bind_eq by (by apply getData_string).
  unfold handleDailyRollover, strict_ne. simpl.
  rewrite bool_decide_eq_false_2 by done. simpl.
  rewrite bool_decide_eq_true_2 by done. simpl.
  erewrite bind_eq by reflexivity.
  erewrite bind_eq by (by apply getData_list).
  unfold ret. simpl. by rewrite length_app, Nat.add_1_r.
Qed.

Lemma reconcile_new_day todayDate today w :
  storage w !! TODAY_TASKS_KEY = SArray <$> today →
  (todayDate = "" ∨ storage w !! LAST_OPEN_DATE_KEY ≠ Some (SString todayDate)) →
  ∃ t1 s1 w1,
    reconcile todayDate w = Some ((VArray t1, VArray s1), w1)
    ∧ heap w1 !! t1 = Some []
    ∧ heap w1 !! s1 = Some (List.filter incomplete (default [] today))
    ∧ storage w1
      = <[SPILLOVER_TASKS_KEY := SArray (List.filter incomplete (default [] today))]>
          (<[TODAY_TASKS_KEY := SArray []]>
             (<[LAST_OPEN_DATE_KEY := SString todayDate]> (storage w)))
    ∧ document w1 = document w
    ∧ pending w1 = pending w.
Proof.
  intros Ht Hl. unfold reconcile.
  rewrite (bind_eq _ _ _ _ _ (getData_list _ _ _ Ht)).
  set (w0 := allocated (default [] today) w).
  assert (H0 : heap w0 !! length (heap w) = Some (default [] today))
    by apply lookup_alloc_new.
  destruct (getData_cases LAST_OPEN_DATE_KEY w0)
    as [(s & Hs & Hst & Hg)|(x & Hg & Hst)].
  - rewrite (bind_eq _ _ _ _ _ Hg).
    rewrite (handleDailyRollover_new_day_eq _ _ _ _ _ H0).
    + do 3 eexists. split; [reflexivity|]. simpl.
      split; [rewrite lookup_app_r by lia; by replace (S _ - _) with 1 by lia|].
      split; [by rewrite lookup_app_r, Nat.sub_diag|]. done.
    + simpl. by rewrite bool_decide_eq_false_2.
    + intros [= ->]. destruct Hl as [Hl|Hl]; [done|]. by apply Hl.
  - rewrite (bind_eq _ _ _ _ _ Hg).
    rewrite (handleDailyRollover_new_day_eq _ _ (length (heap w)) (default [] today)).
    + do 3 eexists. split; [reflexivity|]. simpl.
      split; [rewrite lookup_app_r by lia; by replace (S _ - _) with 1 by lia|].
      split; [by rewrite lookup_app_r, Nat.sub_diag|]. done.
    + simpl. by apply lookup_alloc_old.
    + done.
    + done.
Qed.

Lemma lookup_allocated_twice (h : list (list Task)) x y :
  ((h ++ [x]) ++ [y]) !! length h = Some x
  ∧ ((h ++ [x]) ++ [y]) !! S (length h) = Some y.
Proof.
  split; [apply lookup_alloc_old, lookup_alloc_new|].
  replace (S (length h)) with (length (h ++ [x]))
    by (rewrite length_app; simpl; lia).
  apply lookup_alloc_new.
Qed.

(** A first run that leaves the date stored, followed by a run that only
    reads. *)
Lemma second_run_intro (rec : M (Val * Val)) todayDate w t1 s1 w1 lt ls :
  rec w = Some ((VArray t1, VArray s1), w1) →
  storage w1 !! LAST_OPEN_DATE_KEY = Some (SString todayDate) →
  heap w1 !! t1 = Some lt →
  heap w1 !! s1 = Some ls →
  rec w1 = Some ((VArray (length (heap w1)), VArray (S (length (heap w1)))),
                 allocated ls (allocated lt w1)) →
  second_run_changes_nothing rec todayDate w.
Proof.
  intros H1 Hl Ht1 Hs1 H2.
  exists t1, s1, w1, (length (heap w1)), (S (length (heap w1))),
    (allocated ls (allocated lt w1)), lt, ls.
  split_and!; try done; apply lookup_allocated_twice.
Qed.

Lemma reconcile_second_run todayDate today spill w :
  todayDate ≠ "" →
  storage w !! TODAY_TASKS_KEY = SArray <$> today →
  storage w !! SPILLOVER_TASKS_KEY = SArray <$> spill →
  second_run_changes_nothing (reconcile todayDate) todayDate w.
Proof.
  intros Hd Ht Hs.
  destruct (decide (storage w !! LAST_OPEN_DATE_KEY = Some (SString todayDate)))
    as [Hl|Hl].
  - (* the date is stored already: no run writes *)
    eapply second_run_intro.
    + by apply (reconcile_same_day _ today spill).
    + done.
    + apply lookup_allocated_twice.
    + apply lookup_allocated_twice.
    + by apply (reconcile_same_day _ today spill).
  - (* the first run rolls over and stores the date *)
    destruct (reconcile_new_day todayDate today w Ht (or_intror Hl))
      as (t1 & s1 & w1 & H1 & Ht1 & Hs1 & Hst & _).
    eapply second_run_intro; [exact H1| |exact Ht1|exact Hs1|].
    + rewrite Hst. storage_lookup.
    + apply (reconcile_same_day _ (Some [])
               (Some (List.filter incomplete (default [] today))));
        [done|rewrite Hst; storage_lookup..].
Qed.

(** *** The same for [popup.js] *)

Lemma Popup_initialize_reconcile todayDate w :
  Popup.initialize todayDate w
  = (do r <~ Popup.reconcile todayDate;
     Popup.renderLists r.1 r.2 ;;
     do w <~ get_world;
     if negb (listeners_set (document w)) then set_listeners_set true else ret tt) w.
Proof.
  unfold Popup.initialize, Popup.reconcile, bind.
  destruct (Popup.getData TODAY_TASKS_KEY w) as [[v w0]|]; [|done].
  destruct (or_empty_array v w0) as [[t w1]|]; [|done].
  destruct (Popup.getData LAST_OPEN_DATE_KEY w1) as [[d w2]|]; [|done].
  by destruct (Popup.handleDailyRollover todayDate t d w2) as [[[] w3]|].
Qed.

Lemma Popup_reconcile_same_day todayDate today spill w :
  todayDate ≠ "" →
  storage w !! TODAY_TASKS_KEY = SArray <$> today →
  storage w !! SPILLOVER_TASKS_KEY = SArray <$> spill →
  storage w !! LAST_OPEN_DATE_KEY = Some (SString todayDate) →
  Popup.reconcile todayDate w
  = Some ((VArray (length (heap w)), VArray (S (length (heap w)))),
          allocated (default [] spill) (allocated (default [] today) w)).
Proof.
  intros Hd Ht Hs Hl. unfold Popup.reconcile.
  change (do v <~ Popup.getData TODAY_TASKS_KEY; or_empty_array v)
    with (getData TODAY_TASKS_KEY).
  rewrite (bind_eq _ _ _ _ _ (getData_list _ _ _ Ht)).
  erewrite bind_eq.
  2:{ unfold Popup.getData, storage_get.
      rewrite (bind_eq get_world _ _ _ _ eq_refl). simpl. rewrite Hl.
      reflexivity. }
  rewrite Popup_handleDailyRollover_eq.
  unfold handleDailyRollover, strict_ne. simpl.
  rewrite bool_decide_eq_false_2 by done. simpl.
  rewrite bool_decide_eq_true_2 by done. simpl.
  erewrite bind_eq by reflexivity.
  erewrite bind_eq by (by apply getData_list).
  unfold ret. simpl. by rewrite length_app, Nat.add_1_r.
Qed.

(** No date is stored, or an empty one: the branch of the first run. *)
Lemma Popup_reconcile_first_run todayDate today spill w :
  storage w !! TODAY_TASKS_KEY = SArray <$> today →
  storage w !! SPILLOVER_TASKS_KEY = SArray <$> spill →
  (storage w !! LAST_OPEN_DATE_KEY = None
   ∨ storage w !! LAST_OPEN_DATE_KEY = Some (SString "")) →
  Popup.reconcile todayDate w
  = Some ((VArray (length (heap w)), VArray (S (length (heap w)))),
          mkWorld ((heap w ++ [default [] today]) ++ [default [] spill])
            (<[LAST_OPEN_DATE_KEY := SString todayDate]> (storage w))
            (document w) (pending w)
            (saves w ++ [ {[ LAST_OPEN_DATE_KEY := SString todayDate ]} ])).
Proof.
  intros Ht Hs Hl. unfold Popup.reconcile.
  change (do v <~ Popup.getData TODAY_TASKS_KEY; or_empty_array v)
    with (getData TODAY_TASKS_KEY).
  rewrite (bind_eq _ _ _ _ _ (getData_list _ _ _ Ht)).
  assert (Hg : ∃ v, truthy v = false
                    ∧ Popup.getData LAST_OPEN_DATE_KEY
                        (allocated (default [] today) w)
                      = Some (v, allocated (default [] today) w)).
  { unfold Popup.getData, storage_get.
    rewrite (bind_eq get_world _ _ _ _ eq_refl). simpl.
    destruct Hl as [-> | ->]; [by exists VUndefined|by exists (VString "")]. }
  destruct Hg as (v & Hv & Hg). rewrite (bind_eq _ _ _ _ _ Hg).
  rewrite Popup_handleDailyRollover_eq.
  unfold handleDailyRollover. rewrite Hv. simpl.
  erewrite bind_eq by (by apply saveData_one).
  erewrite bind_eq by (apply getData_list; simpl; by storage_lookup).
  unfold ret, allocated. simpl. by rewrite length_app, Nat.add_1_r.
Qed.

Lemma Popup_reconcile_new_day todayDate today x w :
  storage w !! TODAY_TASKS_KEY = SArray <$> today →
  storage w !! LAST_OPEN_DATE_KEY = Some x →
  x ≠ SString "" →
  x ≠ SString todayDate →
  ∃ t1 s1 w1,
    Popup.reconcile todayDate w = Some ((VArray t1, VArray s1), w1)
    ∧ heap w1 !! t1 = Some []
    ∧ heap w1 !! s1 = Some (List.filter incomplete (default [] today))
    ∧ storage w1
      = <[SPILLOVER_TASKS_KEY := SArray (List.filter incomplete (default [] today))]>
          (<[TODAY_TASKS_KEY := SArray []]>
             (<[LAST_OPEN_DATE_KEY := SString todayDate]> (storage w))).
Proof.
  intros Ht Hl Hx Hd. unfold Popup.reconcile.
  change (do v <~ Popup.getData TODAY_TASKS_KEY; or_empty_array v)
    with (getData TODAY_TASKS_KEY).
  rewrite (bind_eq _ _ _ _ _ (getData_list _ _ _ Ht)).
  set (w0 := allocated (default [] today) w).
  assert (Hg : ∃ v w0', Popup.getData LAST_OPEN_DATE_KEY w0 = Some (v, w0')
                 ∧ truthy v = true ∧ v ≠ VString todayDate
                 ∧ storage w0' = storage w
                 ∧ heap w0' !! length (heap w) = Some (default [] today)).
  { unfold Popup.getData, storage_get.
    rewrite (bind_eq get_world _ _ _ _ eq_refl). simpl. rewrite Hl.
    destruct x as [s|y].
    - exists (VString s), w0. split; [done|]. simpl.
      split; [rewrite bool_decide_eq_false_2; [done|congruence]|].
      split; [congruence|]. split; [done|apply lookup_alloc_new].
    - eexists _, _. split; [reflexivity|]. simpl.
      split; [done|]. split; [done|]. split; [done|].
      apply lookup_alloc_old, lookup_alloc_new. }
  destruct Hg as (v & w0' & Hg & Hv & Hne & Hst & Hh).
  rewrite (bind_eq _ _ _ _ _ Hg), Popup_handleDailyRollover_eq.
  rewrite (handleDailyRollover_new_day_eq _ _ _ _ _ Hh Hv Hne).
  do 3 eexists. split; [reflexivity|]. simpl.
  split; [rewrite lookup_app_r by lia; by replace (S _ - _) with 1 by lia|].
  split; [by rewrite lookup_app_r, Nat.sub_diag|]. by rewrite Hst.
Qed.

Lemma Popup_reconcile_second_run todayDate today spill w :
  todayDate ≠ "" →
  storage w !! TODAY_TASKS_KEY = SArray <$> today →
  storage w !! SPILLOVER_TASKS_KEY = SArray <$> spill →
  second_run_changes_nothing (Popup.reconcile todayDate) todayDate w.
Proof.
  intros Hd Ht Hs.
  assert (Hfirst : storage w !! LAST_OPEN_DATE_KEY = None
                   ∨ storage w !! LAST_OPEN_DATE_KEY = Some (SString "") →
                   second_run_changes_nothing (Popup.reconcile todayDate)
                     todayDate w).
  { (* no date, or an empty one: the first run stores the date *)
    intros Hl. eapply second_run_intro.
    - by apply (Popup_reconcile_first_run _ today spill).
    - simpl. storage_lookup.
    - apply lookup_allocated_twice.
    - apply lookup_allocated_twice.
    - apply (Popup_reconcile_same_day _ today spill);
        [done|simpl; storage_lookup..]. }
  destruct (storage w !! LAST_OPEN_DATE_KEY) as [x|] eqn:Hl; [|by auto].
  destruct (decide (x = SString todayDate)) as [->|Hx].
  - (* the date is stored already *)
    eapply second_run_intro.
    + by apply (Popup_reconcile_same_day _ today spill).
    + done.
    + apply lookup_allocated_twice.
    + apply lookup_allocated_twice.
    + by apply (Popup_reconcile_same_day _ today spill).
  - destruct (decide (x = SString "")) as [->|Hx']; [by auto|].
    (* another day: the rollover *)
    destruct (Popup_reconcile_new_day todayDate today x w Ht Hl Hx' Hx)
      as (t1 & s1 & w1 & H1 & Ht1 & Hs1 & Hst).
    eapply second_run_intro; [exact H1| |exact Ht1|exact Hs1|].
    + rewrite Hst. storage_lookup.
    + apply (Popup_reconcile_same_day _ (Some [])
               (Some (List.filter incomplete (default [] today))));
        [done|rewrite Hst; storage_lookup..].
Qed.

(** C3. Two runs of the reconciliation in a row, on one current date, in
    both revisions: the first run leaves the current date stored as last
    open date; the second run leaves the storage exactly as the first run
    left it, and returns a today list and a spillover list with the same
    tasks as the first run returned. *)
Theorem reconcile_twice_same_date todayDate today spill w :
  todayDate ≠ "" →
  storage w !! TODAY_TASKS_KEY = SArray <$> today →
  storage w !! SPILLOVER_TASKS_KEY = SArray <$> spill →
  second_run_changes_nothing (reconcile todayDate) todayDate w
  ∧ second_run_changes_nothing (Popup.reconcile todayDate) todayDate w.
Proof.
  intros Hd Ht Hs. split.
  - by eapply reconcile_second_run.
  - by eapply Popup_reconcile_second_run.
Qed.

Lemma reconcile_twice_same_date_witness :
  second_run_changes_nothing (reconcile "2024-01-03") "2024-01-03" two_lists_world
  ∧ second_run_changes_nothing (Popup.reconcile "2024-01-03") "2024-01-03"
      two_lists_world.
Proof.
  apply (reconcile_twice_same_date "2024-01-03" (Some order_example)
           (Some example_tasks) two_lists_world).
  - discriminate.
  - reflexivity.
  - reflexivity.
Defined.

(** ** The ids of the tasks *)

(** C8, at the input where it fails.  Two tasks added while [Date.now()]
    returns the same number get the same id: the stored today list then
    holds two tasks with one id. *)
Theorem same_millisecond_same_id :
  ∃ w,
    two_adds "2024-01-02" 1700000000000 fresh_world = Some (tt, w)
    ∧ storage w !! TODAY_TASKS_KEY
      = Some (SArray [ mkTask (Some 1700000000000%Z) "a" false;
                       mkTask (Some 1700000000000%Z) "b" false ])
    ∧ ¬ NoDup (map id [ mkTask (Some 1700000000000%Z) "a" false;
                        mkTask (Some 1700000000000%Z) "b" false ]).
Proof.
  eexists. split; [vm_compute; reflexivity|].
  split; [vm_compute; reflexivity|].
  simpl. rewrite NoDup_cons. intros [H _]. apply H. by left.
Qed.

(** What the shared id leads to: both items of the page point at the first
    of the two tasks, and the delete button of the item showing "b" removes
    the task "a". *)
Example shared_id_deletes_other_task :
  ∃ w e w',
    two_adds "2024-01-02" 1700000000000 fresh_world = Some (tt, w)
    ∧ taskList (document w) !! 1 = Some e
    ∧ text (el_task e) = "b"
    ∧ deleteBtn_click e w = Some (tt, w')
    ∧ storage w' !! TODAY_TASKS_KEY
      = Some (SArray [ mkTask (Some 1700000000000%Z) "b" false ]).
Proof.
  do 3 eexists. split; [vm_compute; reflexivity|].
  split; [reflexivity|]. split; [reflexivity|].
  split; [vm_compute; reflexivity|]. vm_compute; reflexivity.
Qed.

(** The ids stay distinct as long as every new task comes with a number
    that no task of the today list has. *)
Lemma push_fresh_id_NoDup now txt (l : list Task) :
  NoDup (map id l) →
  Some now ∉ map id l →
  NoDup (map id (l ++ [mkTask (Some now) txt false])).
Proof.
  intros Hl Hn. rewrite map_app. simpl.
  apply NoDup_app. split; [done|]. split; [|apply NoDup_singleton].
  intros x Hx ->%list_elem_of_singleton. done.
Qed.

Lemma filter_incomplete_ids_NoDup l :
  NoDup (map id l) → NoDup (map id (List.filter incomplete l)).
Proof.
  intros H. eapply sublist_NoDup; [exact H|].
  change (map id) with (fmap (M:=list) id).
  apply fmap_sublist, filter_incomplete_sublist.
Qed.

Lemma splice_ids_NoDup i l :
  NoDup (map id l) → NoDup (map id (splice i 1 l)).
Proof.
  intros H. eapply sublist_NoDup; [exact H|].
  change (map id) with (fmap (M:=list) id).
  apply fmap_sublist. unfold splice.
  rewrite <- (take_drop i l) at 3.
  apply sublist_app; [done|].
  rewrite <- drop_drop. apply sublist_drop.
Qed.

(** At the level of the operations: a task added with a number that no
    stored task has keeps the ids of the today list distinct, and so does a
    rollover for the spillover list. *)
Lemma addTask_keeps_ids_distinct now stored w :
  trim (taskInput_value (document w)) ≠ "" →
  storage w !! TODAY_TASKS_KEY = SArray <$> stored →
  NoDup (map id (default [] stored)) →
  Some now ∉ map id (default [] stored) →
  ∃ w' today',
    addTask now w = Some (tt, w')
    ∧ storage w' !! TODAY_TASKS_KEY = Some (SArray today')
    ∧ NoDup (map id today').
Proof.
  intros Ht Hs Hnd Hnew. do 2 eexists.
  split; [by apply addTask_eq|]. simpl.
  split; [by rewrite lookup_insert_eq|]. by apply push_fresh_id_NoDup.
Qed.

Lemma rollover_keeps_ids_distinct todayDate lastOpenDate a l w :
  heap w !! a = Some l →
  truthy lastOpenDate = true →
  lastOpenDate ≠ VString todayDate →
  NoDup (map id l) →
  ∃ r w' spill,
    handleDailyRollover todayDate (VArray a) lastOpenDate w = Some (r, w')
    ∧ storage w' !! SPILLOVER_TASKS_KEY = Some (SArray spill)
    ∧ storage w' !! TODAY_TASKS_KEY = Some (SArray [])
    ∧ NoDup (map id spill).
Proof.
  intros Ha Ht Hne Hnd. do 3 eexists.
  split; [by apply handleDailyRollover_new_day_eq|]. simpl.
  split; [storage_lookup|]. split; [storage_lookup|].
  by apply filter_incomplete_ids_NoDup.
Qed.

(** ** A whole run of [initialize] *)

Lemma initialize_reconcile todayDate w :
  initialize todayDate w
  = (do r <~ reconcile todayDate;
     renderLists r.1 r.2 ;;
     do w <~ get_world;
     if negb (listeners_set (document w)) then set_listeners_set true else ret tt) w.
Proof.
  unfold initialize, reconcile, bind.
  destruct (getData TODAY_TASKS_KEY w) as [[t w1]|]; [|done].
  destruct (getData LAST_OPEN_DATE_KEY w1) as [[d w2]|]; [|done].
  by destruct (handleDailyRollover todayDate t d w2) as [[[] w3]|].
Qed.

Lemma length_partitioned l : length (partitioned l) = length l.
Proof.
  unfold partitioned. rewrite length_app.
  induction l as [|t l IH]; simpl; [done|].
  unfold incomplete at 1. destruct (completed t); simpl; lia.
Qed.

(** On the day that is stored as last open date, [initialize] reads the
    two lists and shows them; it writes nothing. *)
Lemma initialize_same_day todayDate today spill w :
  todayDate ≠ "" →
  storage w !! TODAY_TASKS_KEY = SArray <$> today →
  storage w !! SPILLOVER_TASKS_KEY = SArray <$> spill →
  storage w !! LAST_OPEN_DATE_KEY = Some (SString todayDate) →
  ∃ w',
    initialize todayDate w = Some (tt, w')
    ∧ storage w' = storage w
    ∧ saves w' = saves w
    ∧ shown (taskList (document w')) = partitioned (default [] today)
    ∧ shown (spilloverList (document w')) = partitioned (default [] spill)
    ∧ spilloverSection_display (document w') = (0 <? length (default [] spill))
    ∧ pending w' = pending w.
Proof.
  intros Hd Ht Hs Hl. rewrite initialize_reconcile.
  rewrite (bind_eq _ _ _ _ _ (reconcile_same_day _ _ _ _ Hd Ht Hs Hl)).
  cbn [fst snd].
  erewrite bind_eq by (apply renderLists_eq; apply lookup_allocated_twice).
  rewrite (bind_eq get_world _ _ _ _ eq_refl).
  exists (mkWorld (heap (rendered (length (heap w)) (S (length (heap w)))
                          (default [] today) (default [] spill)
                          (allocated (default [] spill)
                             (allocated (default [] today) w))))
            (storage w)
            (mkDocument
               (items false (VArray (length (heap w))) (default [] today))
               (items true (VArray (S (length (heap w)))) (default [] spill))
               (0 <? length (sort_by by_completed (default [] spill)))
               (taskInput_value (document w)) true)
            (pending w) (saves w)).
  split.
  - simpl. destruct (listeners_set (document w)) eqn:E; simpl; [|done].
    unfold ret, rendered. simpl. by rewrite E.
  - simpl. split_and!; try done; try apply shown_items.
    rewrite sort_by_completed.
    change (List.filter _ _ ++ _) with (partitioned (default [] spill)).
    by rewrite length_partitioned.
Qed.

(** Adding a task and letting the started [initialize] run, on the day
    that is stored: the new task is stored and shown, the other keys are
    as before. *)
Lemma addTask_settle_same_day todayDate now today spill w :
  trim (taskInput_value (document w)) ≠ "" →
  todayDate ≠ "" →
  storage w !! TODAY_TASKS_KEY = SArray <$> today →
  storage w !! SPILLOVER_TASKS_KEY = SArray <$> spill →
  storage w !! LAST_OPEN_DATE_KEY = Some (SString todayDate) →
  pending w = [] →
  let t := mkTask (Some now) (trim (taskInput_value (document w))) false in
  ∃ w',
    (addTask now ;; settle todayDate) w = Some (tt, w')
    ∧ storage w' = <[TODAY_TASKS_KEY := SArray (default [] today ++ [t])]> (storage w)
    ∧ saves w' = saves w ++ [ {[ TODAY_TASKS_KEY := SArray (default [] today ++ [t]) ]} ]
    ∧ shown (taskList (document w')) = partitioned (default [] today ++ [t])
    ∧ pending w' = [].
Proof.
  intros Htxt Hd Ht Hs Hl Hp t.
  rewrite (bind_eq _ _ _ _ _ (addTask_eq now today w Htxt Ht)).
  unfold settle. rewrite (bind_eq get_world _ _ _ _ eq_refl).
  erewrite bind_eq by reflexivity. simpl. rewrite Hp. simpl.
  set (w1 := mkWorld _ _ _ _ _).
  destruct (initialize_same_day todayDate (Some (default [] today ++ [t])) spill w1)
    as (w' & Hi & Hst & Hsv & Hshow & _ & _ & Hpend);
    [done|simpl; storage_lookup..|].
  rewrite (bind_eq _ _ _ _ _ Hi). unfold ret. by exists w'.
Qed.

(** When the day has changed since the popup was opened, the [initialize]
    that [addTask] starts rolls the lists over: the task just added goes
    to the spillover list with the other incomplete tasks. *)
Example addTask_settle_next_day :
  ∃ w w',
    addTask 1700000000000 yesterday_world = Some (tt, w)
    ∧ storage w !! TODAY_TASKS_KEY
      = Some (SArray [ mkTask (Some 1%Z) "one" false;
                       mkTask (Some 1700000000000%Z) "two" false ])
    ∧ settle "2024-01-02" w = Some (tt, w')
    ∧ storage w' !! TODAY_TASKS_KEY = Some (SArray [])
    ∧ storage w' !! SPILLOVER_TASKS_KEY
      = Some (SArray [ mkTask (Some 1%Z) "one" false;
                       mkTask (Some 1700000000000%Z) "two" false ]).
Proof.
  do 2 eexists. split; [vm_compute; reflexivity|].
  split; [vm_compute; reflexivity|].
  split; [vm_compute; reflexivity|].
  split; vm_compute; reflexivity.
Qed.

(** The first run of the later revision.  [initialize] hands to
    [handleDailyRollover] what [getData] returns, and for an absent date
    that is an empty array, which is truthy: the branch taken is the one of
    the rollover, and on the empty storage it stores two empty lists and
    the date. *)
Example first_open_takes_rollover_branch :
  ∃ t s w,
    reconcile "2024-01-02" fresh_world = Some ((VArray t, VArray s), w)
    ∧ heap w !! t = Some [] ∧ heap w !! s = Some []
    ∧ saves w = [ {[ SPILLOVER_TASKS_KEY := SArray [];
                     TODAY_TASKS_KEY := SArray [];
                     LAST_OPEN_DATE_KEY := SString "2024-01-02" ]} ].
Proof.
  destruct (reconcile_new_day "2024-01-02" None fresh_world)
    as (t & s & w & H & Ht & Hs & _); [done|by right|].
  exists t, s, w. split; [done|]. split; [done|]. split; [done|].
  revert H. vm_compute. by intros [= <- <- <-].
Qed.

(** In [popup.js] an absent date reaches [handleDailyRollover] as
    [undefined]: the first run writes the date and nothing else. *)
Example Popup_first_open_stores_the_date :
  ∃ w,
    Popup.initialize "2024-01-02" fresh_world = Some (tt, w)
    ∧ saves w = [ {[ LAST_OPEN_DATE_KEY := SString "2024-01-02" ]} ].
Proof. eexists. split; vm_compute; reflexivity. Qed.

(** ** Sessions: the ids stay distinct while the clock gives new numbers *)

Lemma stored_list_eq key (o : option (list Task)) w :
  storage w !! key = SArray <$> o → stored_list key w = default [] o.
Proof. intros H. unfold stored_list. rewrite H. by destruct o. Qed.

Lemma reconcile_spec todayDate w :
  lists_stored w →
  ∃ t s w1,
    reconcile todayDate w = Some ((VArray t, VArray s), w1)
    ∧ heap w1 !! t = Some (stored_list TODAY_TASKS_KEY w1)
    ∧ heap w1 !! s = Some (stored_list SPILLOVER_TASKS_KEY w1)
    ∧ lists_stored w1
    ∧ pending w1 = pending w
    ∧ ((stored_list TODAY_TASKS_KEY w1 = stored_list TODAY_TASKS_KEY w
        ∧ stored_list SPILLOVER_TASKS_KEY w1 = stored_list SPILLOVER_TASKS_KEY w)
       ∨ (stored_list TODAY_TASKS_KEY w1 = []
          ∧ stored_list SPILLOVER_TASKS_KEY w1
            = List.filter incomplete (stored_list TODAY_TASKS_KEY w))).
Proof.
  intros [[today Ht] [spill Hs]].
  destruct (decide (todayDate ≠ ""
                    ∧ storage w !! LAST_OPEN_DATE_KEY = Some (SString todayDate)))
    as [[Hd Hl]|Hn].
  - do 3 eexists. split; [by apply (reconcile_same_day _ today spill)|].
    unfold stored_list. simpl. rewrite Ht, Hs.
    split_and!.
    + destruct today; apply lookup_allocated_twice.
    + destruct spill; apply lookup_allocated_twice.
    + split; eauto.
    + done.
    + by left.
  - destruct (reconcile_new_day todayDate today w Ht)
      as (t & s & w1 & H & Ht1 & Hs1 & Hst & _ & Hp).
    { destruct (decide (todayDate = "")); [by left|right].
      intros Hl. apply Hn. by split. }
    exists t, s, w1. split; [done|].
    unfold stored_list. rewrite Hst, Ht.
    rewrite lookup_insert_eq.
    rewrite lookup_insert_ne, lookup_insert_eq by done.
    split_and!; try done.
    + split; [exists (Some [])|eexists (Some _)]; rewrite Hst; by storage_lookup.
    + right. split; [done|]. by destruct today.
Qed.

Lemma stored_list_storage key w w' :
  storage w' = storage w → stored_list key w' = stored_list key w.
Proof. unfold stored_list. by intros ->. Qed.

Lemma findIndex_lt p l i : findIndex p l = Some i → i < length l.
Proof.
  intros (l1 & t & l2 & -> & <- & _)%findIndex_Some.
  rewrite length_app. simpl. lia.
Qed.

(** The items of a list point into the array they were made from. *)
Lemma items_in_sync isSp a lst e :
  e ∈ items isSp (VArray a) lst →
  el_listArray e = VArray a ∧ el_isSpillover e = isSp ∧ el_index e < length lst.
Proof.
  intros (t & i & -> & _ & Hi)%elem_of_items. simpl.
  split; [done|]. split; [done|]. by eapply findIndex_lt.
Qed.

Lemma set_listeners_set_eq b w :
  set_listeners_set b w
  = Some (tt, mkWorld (heap w) (storage w)
                (mkDocument (taskList (document w)) (spilloverList (document w))
                   (spilloverSection_display (document w))
                   (taskInput_value (document w)) b)
                (pending w) (saves w)).
Proof. reflexivity. Qed.

Lemma initialize_spec todayDate w :
  lists_stored w →
  ∃ w',
    initialize todayDate w = Some (tt, w')
    ∧ lists_stored w'
    ∧ page_in_sync w'
    ∧ pending w' = pending w
    ∧ ((stored_list TODAY_TASKS_KEY w' = stored_list TODAY_TASKS_KEY w
        ∧ stored_list SPILLOVER_TASKS_KEY w' = stored_list SPILLOVER_TASKS_KEY w)
       ∨ (stored_list TODAY_TASKS_KEY w' = []
          ∧ stored_list SPILLOVER_TASKS_KEY w'
            = List.filter incomplete (stored_list TODAY_TASKS_KEY w))).
Proof.
  intros Hls. rewrite initialize_reconcile.
  destruct (reconcile_spec todayDate w Hls)
    as (t & s & w1 & H & Ht & Hs & Hls1 & Hp & Hcase).
  rewrite (bind_eq _ _ _ _ _ H). cbn [fst snd].
  erewrite bind_eq by (by apply renderLists_eq).
  rewrite (bind_eq get_world _ _ _ _ eq_refl).
  set (lt := stored_list TODAY_TASKS_KEY w1) in *.
  set (ls := stored_list SPILLOVER_TASKS_KEY w1) in *.
  set (R := rendered t s lt ls w1).
  assert (Hall : ∀ W,
    heap W = heap R → storage W = storage w1 →
    taskList (document W) = items false (VArray t) lt →
    spilloverList (document W) = items true (VArray s) ls →
    pending W = pending w1 →
    lists_stored W ∧ page_in_sync W ∧ pending W = pending w
    ∧ ((stored_list TODAY_TASKS_KEY W = stored_list TODAY_TASKS_KEY w
        ∧ stored_list SPILLOVER_TASKS_KEY W = stored_list SPILLOVER_TASKS_KEY w)
       ∨ (stored_list TODAY_TASKS_KEY W = []
          ∧ stored_list SPILLOVER_TASKS_KEY W
            = List.filter incomplete (stored_list TODAY_TASKS_KEY w)))).
  { intros W Hh Hst Htl Hsl HpW.
    split; [unfold lists_stored; by rewrite Hst|].
    split; [|split; [congruence|by rewrite !(stored_list_storage _ w1 W Hst)]].
    intros isSp e He.
    rewrite (stored_list_storage _ w1 W Hst), Hh. unfold R, rendered. simpl.
    destruct isSp; simpl in He.
    - rewrite Hsl in He. apply items_in_sync in He as (? & ? & ?).
      exists s. split_and!; try done. by rewrite lookup_app_l by (by eapply lookup_lt_Some).
    - rewrite Htl in He. apply items_in_sync in He as (? & ? & ?).
      exists t. split_and!; try done. by rewrite lookup_app_l by (by eapply lookup_lt_Some). }
  destruct (listeners_set (document R)) eqn:E; simpl.
  - exists R. split; [done|]. by apply Hall.
  - eexists. split; [apply set_listeners_set_eq|]. by apply Hall.
Qed.

(** [initialize] leads to a settled world, whatever the date is. *)
Lemma initialize_settles todayDate w :
  lists_stored w → ids_distinct w → pending w = [] →
  ∃ w', initialize todayDate w = Some (tt, w') ∧ settled w'.
Proof.
  intros Hls [Hid1 Hid2] Hp.
  destruct (initialize_spec todayDate w Hls) as (w' & H & Hls' & Hsync & Hp' & Hcase).
  exists w'. split; [done|]. split; [done|]. split; [|split; [done|congruence]].
  unfold ids_distinct. destruct Hcase as [[-> ->]|[-> ->]]; split; try done.
  - constructor.
  - by apply filter_incomplete_ids_NoDup.
Qed.

Lemma settle_nothing todayDate w : pending w = [] → settle todayDate w = Some (tt, w).
Proof. destruct w as [h s d p sv]. simpl. by intros ->. Qed.

Lemma settle_initialize todayDate w w' :
  pending w = [JInitialize] →
  initialize todayDate
    (mkWorld (heap w) (storage w) (document w) [] (saves w)) = Some (tt, w') →
  settle todayDate w = Some (tt, w').
Proof.
  intros Hp Hi. unfold settle. rewrite (bind_eq get_world _ _ _ _ eq_refl).
  erewrite bind_eq by reflexivity. rewrite Hp. simpl.
  by rewrite (bind_eq _ _ _ _ _ Hi).
Qed.

(** After a listener that has written and started [initialize], the event
    loop leads to a settled world. *)
Lemma settle_settles todayDate w :
  pending w = [JInitialize] → lists_stored w → ids_distinct w →
  ∃ w', settle todayDate w = Some (tt, w') ∧ settled w'.
Proof.
  intros Hp Hls Hid.
  destruct (initialize_settles todayDate
              (mkWorld (heap w) (storage w) (document w) [] (saves w)))
    as (w' & Hi & Hs); [done..|].
  exists w'. split; [by apply settle_initialize|done].
Qed.

(** A list with distinct ids written under one of the two list keys. *)
Lemma write_list_keeps isSp l w w' :
  lists_stored w → ids_distinct w →
  storage w' = <[key_of isSp := SArray l]> (storage w) →
  NoDup (map id l) →
  lists_stored w' ∧ ids_distinct w'.
Proof.
  intros [[ot Ht] [os Hs]] [Hid1 Hid2] Hst Hl.
  unfold lists_stored, ids_distinct, stored_list in *. rewrite Hst.
  destruct isSp; simpl.
  - rewrite lookup_insert_eq, lookup_insert_ne by done.
    split; [split; [by exists ot|by exists (Some l)]|done].
  - rewrite lookup_insert_eq, lookup_insert_ne by done.
    split; [split; [by exists (Some l)|by exists os]|done].
Qed.

Lemma checkbox_change_eq c lst t t0 i isSp checked w :
  heap w !! c = Some lst →
  lst !! i = Some t →
  checkbox_change (mkElement t0 (VArray c) i isSp) checked w
  = Some (tt, mkWorld (<[c := <[i := mkTask (id t) (text t) checked]> lst]> (heap w))
                (<[key_of isSp := SArray (<[i := mkTask (id t) (text t) checked]> lst)]>
                   (storage w))
                (document w) (pending w ++ [JInitialize])
                (saves w ++ [ {[ key_of isSp
                                 := SArray (<[i := mkTask (id t) (text t) checked]> lst) ]} ])).
Proof.
  intros Hc Hi. unfold checkbox_change.
  cbn [el_listArray el_index el_isSpillover].
  erewrite bind_eq by (by apply elements_of_eq). rewrite Hi.
  erewrite bind_eq by reflexivity.
  erewrite bind_eq.
  2:{ apply saveData_one. simpl.
      by rewrite list_lookup_insert_eq by (by eapply lookup_lt_Some). }
  reflexivity.
Qed.

Lemma toggle_keeps_ids (l : list Task) i t checked :
  l !! i = Some t →
  map id (<[i := mkTask (id t) (text t) checked]> l) = map id l.
Proof.
  intros Hi. change (map id) with (fmap (M:=list) id).
  rewrite list_fmap_insert. simpl. apply list_insert_id.
  by rewrite list_lookup_fmap, Hi.
Qed.

Lemma set_taskInput_value_eq s w :
  set_taskInput_value s w
  = Some (tt, mkWorld (heap w) (storage w)
                (mkDocument (taskList (document w)) (spilloverList (document w))
                   (spilloverSection_display (document w)) s
                   (listeners_set (document w)))
                (pending w) (saves w)).
Proof. reflexivity. Qed.

(** Every event, from a settled world and with a clock that gives a new
    number, runs without an error and leads to a settled world. *)
Lemma react_settles todayDate ev w :
  settled w → fresh_for ev w →
  ∃ w', react todayDate ev w = Some (tt, w') ∧ settled w'.
Proof.
  intros (Hls & Hid & Hsync & Hp) Hfresh.
  assert (Hitem : ∀ isSp k (f : Element → M unit),
    (∀ t c i,
        heap w !! c = Some (stored_list (key_of isSp) w) →
        i < length (stored_list (key_of isSp) w) →
        ∃ w1, f (mkElement t (VArray c) i isSp) w = Some (tt, w1)
              ∧ pending w1 = [JInitialize]
              ∧ lists_stored w1 ∧ ids_distinct w1) →
    ∃ w', (on_item isSp k f ;; settle todayDate) w = Some (tt, w') ∧ settled w').
  { intros isSp k f Hf.
    destruct (items_of isSp (document w) !! k) as [e|] eqn:E.
    - assert (He : e ∈ items_of isSp (document w))
        by (by eapply list_elem_of_lookup_2).
      destruct (Hsync isSp e He) as (c & Hc & Hsp & Hh & Hi).
      destruct e as [t v i sp]. simpl in *. subst v sp.
      destruct (Hf t c i Hh Hi) as (w1 & Hw1 & Hp1 & Hls1 & Hid1).
      assert (Hm : on_item isSp k f w = Some (tt, w1))
        by (unfold on_item, bind, get_world; by rewrite E).
      rewrite (bind_eq _ _ _ _ _ Hm). by apply settle_settles.
    - assert (Hm : on_item isSp k f w = Some (tt, w))
        by (unfold on_item, bind, get_world; by rewrite E).
      rewrite (bind_eq _ _ _ _ _ Hm), settle_nothing by done. by exists w. }
  destruct ev as [|s now|isSp k checked|isSp k]; simpl.
  - (* the popup is opened *)
    unfold open_popup. erewrite bind_eq by reflexivity.
    by apply initialize_settles.
  - (* a task is added *)
    erewrite bind_eq by apply set_taskInput_value_eq.
    set (w0 := mkWorld _ _ _ _ _).
    destruct Hls as [[today Ht] Hspill].
    destruct (decide (trim s = "")) as [Hs|Hs].
    + rewrite (bind_eq _ _ _ _ _ (addTask_empty_trim now w0 Hs)).
      rewrite settle_nothing by done. exists w0. split; [done|].
      split; [by split; [exists today|]|]. by split.
    + rewrite (bind_eq _ _ _ _ _ (addTask_eq now today w0 Hs Ht)).
      apply settle_settles; [simpl; by rewrite Hp|..];
        eapply (write_list_keeps false _ w); try done;
        try (by split; [exists today|]);
        apply push_fresh_id_NoDup;
        rewrite <- ?(stored_list_eq _ _ _ Ht); try done; apply Hid.
  - (* a checkbox is changed *)
    apply Hitem. intros t c i Hh Hi.
    destruct (lookup_lt_is_Some_2 _ _ Hi) as [t' Ht'].
    eexists. split; [eapply checkbox_change_eq; [exact Hh|exact Ht']|]. simpl.
    split; [by rewrite Hp|].
    eapply (write_list_keeps isSp _ w); try done.
    rewrite toggle_keeps_ids by done. destruct isSp; apply Hid.
  - (* a delete button is pressed *)
    apply Hitem. intros t c i Hh Hi.
    eexists. split; [by apply deleteBtn_click_eq|]. simpl.
    split; [by rewrite Hp|].
    eapply (write_list_keeps isSp _ w); try done.
    apply splice_ids_NoDup. destruct isSp; apply Hid.
Qed.

Lemma reachable_settled w : reachable w → settled w.
Proof.
  induction 1 as [d w H|d ev w w' _ IH Hfresh H].
  - unfold open_popup in H. erewrite bind_eq in H by reflexivity.
    destruct (initialize_settles d
                (mkWorld [] (storage fresh_world)
                   (mkDocument [] [] false "" false) [] (saves fresh_world)))
      as (w0 & H0 & Hs); [| |done|].
    + split; by exists None.
    + split; constructor.
    + rewrite H0 in H. by injection H as <-.
  - destruct (react_settles d ev w IH Hfresh) as (w0 & H0 & Hs).
    rewrite H0 in H. by injection H as <-.
Qed.

(** In every world that a session leads to from the empty storage, with a
    clock that gives every [addTask] a number no stored task of the today
    list has, no two tasks of the today list share an id, and no two tasks
    of the spillover list do; and every further event runs without an
    error. *)
Lemma reachable_ids_distinct w : reachable w → ids_distinct w.
Proof. intros H. apply (reachable_settled w H). Qed.

Lemma reachable_react todayDate ev w :
  reachable w → fresh_for ev w →
  ∃ w', react todayDate ev w = Some (tt, w') ∧ reachable w'.
Proof.
  intros Hr Hf.
  destruct (react_settles todayDate ev w (reachable_settled w Hr) Hf)
    as (w' & H & _).
  exists w'. split; [done|]. by eapply reachable_step.
Qed.

(** A session: the popup is opened, and two tasks are added at two
    different milliseconds. *)
Example session_with_two_tasks :
  ∃ w,
    reachable w
    ∧ stored_list TODAY_TASKS_KEY w
      = [ mkTask (Some 1700000000000%Z) "a" false;
          mkTask (Some 1700000000001%Z) "b" false ].
Proof.
  eexists. split.
  - eapply (reachable_step "2024-01-02" (Add "b" 1700000000001)).
    + eapply (reachable_step "2024-01-02" (Add "a" 1700000000000)).
      * eapply (reachable_first "2024-01-02"). vm_compute. reflexivity.
      * vm_compute. by intros ?%elem_of_nil.
      * vm_compute. reflexivity.
    + vm_compute. intros [H|H]%elem_of_cons; [discriminate H|by apply elem_of_nil in H].
    + vm_compute. reflexivity.
  - vm_compute. reflexivity.
Qed.

(** * More of the script *)

(** ** The listeners of an item *)

(** X1. The [change] listener of a checkbox, for an item whose index is
    inside its array: the task at the index gets the state of the checkbox
    as [completed] and keeps its id and text, the other tasks and the
    length of the list stay; the list is written under the key of its
    section, in one write of that key alone, and [initialize] is started. *)
Theorem checkbox_change_sets_completed c lst i t t0 isSp checked w :
  heap w !! c = Some lst →
  lst !! i = Some t →
  ∃ w' lst',
    checkbox_change (mkElement t0 (VArray c) i isSp) checked w = Some (tt, w')
    ∧ lst' !! i = Some (mkTask (id t) (text t) checked)
    ∧ (∀ j, j ≠ i → lst' !! j = lst !! j)
    ∧ length lst' = length lst
    ∧ heap w' !! c = Some lst'
    ∧ storage w' !! key_of isSp = Some (SArray lst')
    ∧ (∀ k, k ≠ key_of isSp → storage w' !! k = storage w !! k)
    ∧ saves w' = saves w ++ [ {[ key_of isSp := SArray lst' ]} ]
    ∧ pending w' = pending w ++ [JInitialize].
Proof.
  intros Hc Hi. eexists. exists (<[i := mkTask (id t) (text t) checked]> lst).
  split; [by eapply checkbox_change_eq|]. simpl.
  assert (Hlt : i < length lst) by (by eapply lookup_lt_Some).
  split_and!; try done.
  - by apply list_lookup_insert_eq.
  - intros j Hj. by apply list_lookup_insert_ne.
  - apply length_insert.
  - apply list_lookup_insert_eq. by eapply lookup_lt_Some.
  - by rewrite lookup_insert_eq.
  - intros k Hk. by rewrite lookup_insert_ne.
Qed.

Lemma checkbox_change_sets_completed_witness :
  ∃ w' lst',
    checkbox_change (mkElement (mkTask (Some 2%Z) "two" false) (VArray 0) 1 false)
      true two_lists_world = Some (tt, w')
    ∧ lst' !! 1 = Some (mkTask (Some 2%Z) "two" true)
    ∧ (∀ j, j ≠ 1 → lst' !! j = order_example !! j)
    ∧ length lst' = length order_example
    ∧ heap w' !! 0 = Some lst'
    ∧ storage w' !! key_of false = Some (SArray lst')
    ∧ (∀ k, k ≠ key_of false → storage w' !! k = storage two_lists_world !! k)
    ∧ saves w' = saves two_lists_world ++ [ {[ key_of false := SArray lst' ]} ]
    ∧ pending w' = pending two_lists_world ++ [JInitialize].
Proof.
  apply (checkbox_change_sets_completed 0 order_example 1
           (mkTask (Some 2%Z) "two" false) (mkTask (Some 2%Z) "two" false)
           false true two_lists_world).
  - reflexivity.
  - reflexivity.
Defined.

(** The array and the stored list after a listener that writes the list
    [lst'] of the array [c]. *)
Lemma listener_heap_lookup (h : list (list Task)) c (lst lst' : list Task) :
  h !! c = Some lst → <[c := lst']> h !! c = Some lst'.
Proof. intros H. apply list_lookup_insert_eq. by eapply lookup_lt_Some. Qed.

(** X2. A checkbox changed and changed back, before the list is rendered
    again: the second run of the listener, with the value the task had,
    leaves the array and the stored list as they were at the start. *)
Theorem checkbox_change_back_restores c lst i t t0 isSp checked w :
  heap w !! c = Some lst →
  lst !! i = Some t →
  ∃ w',
    (checkbox_change (mkElement t0 (VArray c) i isSp) checked ;;
     checkbox_change (mkElement t0 (VArray c) i isSp) (completed t)) w
    = Some (tt, w')
    ∧ heap w' !! c = Some lst
    ∧ storage w' !! key_of isSp = Some (SArray lst)
    ∧ (∀ k, k ≠ key_of isSp → storage w' !! k = storage w !! k).
Proof.
  intros Hc Hi.
  assert (Hlt : i < length lst) by (by eapply lookup_lt_Some).
  erewrite bind_eq by (by eapply checkbox_change_eq).
  set (lst1 := <[i := mkTask (id t) (text t) checked]> lst).
  assert (Hback : <[i := mkTask (id t) (text t) (completed t)]> lst1 = lst).
  { unfold lst1. rewrite list_insert_insert_eq. apply list_insert_id.
    rewrite Hi. by destruct t. }
  eexists. split.
  { eapply checkbox_change_eq; simpl.
    - by eapply listener_heap_lookup.
    - unfold lst1. by apply list_lookup_insert_eq. }
  simpl. rewrite Hback. split_and!.
  - rewrite list_insert_insert_eq. by eapply listener_heap_lookup.
  - by rewrite lookup_insert_eq.
  - intros k Hk. by rewrite !lookup_insert_ne.
Qed.

Lemma checkbox_change_back_restores_witness :
  ∃ w',
    (checkbox_change (mkElement (mkTask (Some 2%Z) "two" false) (VArray 0) 1 false)
       true ;;
     checkbox_change (mkElement (mkTask (Some 2%Z) "two" false) (VArray 0) 1 false)
       (completed (mkTask (Some 2%Z) "two" false))) two_lists_world
    = Some (tt, w')
    ∧ heap w' !! 0 = Some order_example
    ∧ storage w' !! key_of false = Some (SArray order_example)
    ∧ (∀ k, k ≠ key_of false → storage w' !! k = storage two_lists_world !! k).
Proof.
  apply (checkbox_change_back_restores 0 order_example 1
           (mkTask (Some 2%Z) "two" false) (mkTask (Some 2%Z) "two" false)
           false true two_lists_world).
  - reflexivity.
  - reflexivity.
Defined.

Lemma Popup_taskText_click_eq c lst t t0 i isSp w :
  heap w !! c = Some lst →
  lst !! i = Some t →
  Popup.taskText_click (mkElement t0 (VArray c) i isSp) w
  = Some (tt, mkWorld
                (<[c := <[i := mkTask (id t) (text t) (negb (completed t))]> lst]> (heap w))
                (<[key_of isSp
                   := SArray (<[i := mkTask (id t) (text t) (negb (completed t))]> lst)]>
                   (storage w))
                (document w) (pending w ++ [JInitialize])
                (saves w ++ [ {[ key_of isSp
                                 := SArray (<[i := mkTask (id t) (text t)
                                                      (negb (completed t))]> lst) ]} ])).
Proof.
  intros Hc Hi. unfold Popup.taskText_click.
  cbn [el_listArray el_index el_isSpillover].
  erewrite bind_eq by (by apply elements_of_eq). rewrite Hi.
  erewrite bind_eq by reflexivity.
  erewrite bind_eq.
  2:{ apply saveData_one. simpl.
      by rewrite list_lookup_insert_eq by (by eapply lookup_lt_Some). }
  reflexivity.
Qed.

(** X3. In [popup.js] a click on the text of an item flips [completed] of
    the task at the index of the item and keeps the rest of the list; a
    second click, before the list is rendered again, brings the array and
    the stored list back to what they were. *)
Theorem Popup_taskText_click_twice c lst i t t0 isSp w :
  heap w !! c = Some lst →
  lst !! i = Some t →
  ∃ w1 w2,
    Popup.taskText_click (mkElement t0 (VArray c) i isSp) w = Some (tt, w1)
    ∧ heap w1 !! c = Some (<[i := mkTask (id t) (text t) (negb (completed t))]> lst)
    ∧ storage w1 !! key_of isSp
      = Some (SArray (<[i := mkTask (id t) (text t) (negb (completed t))]> lst))
    ∧ Popup.taskText_click (mkElement t0 (VArray c) i isSp) w1 = Some (tt, w2)
    ∧ heap w2 !! c = Some lst
    ∧ storage w2 !! key_of isSp = Some (SArray lst).
Proof.
  intros Hc Hi.
  assert (Hlt : i < length lst) by (by eapply lookup_lt_Some).
  set (lst1 := <[i := mkTask (id t) (text t) (negb (completed t))]> lst).
  assert (Hback : <[i := mkTask (id t) (text t) (negb (negb (completed t)))]> lst1 = lst).
  { unfold lst1. rewrite list_insert_insert_eq, negb_involutive.
    apply list_insert_id. rewrite Hi. by destruct t. }
  do 2 eexists.
  split; [by eapply Popup_taskText_click_eq|]. simpl.
  split; [by eapply listener_heap_lookup|].
  split; [by rewrite lookup_insert_eq|].
  split.
  { eapply (Popup_taskText_click_eq c lst1
              (mkTask (id t) (text t) (negb (completed t)))); simpl.
    - by eapply listener_heap_lookup.
    - unfold lst1. by apply list_lookup_insert_eq. }
  simpl. rewrite Hback. split.
  - rewrite list_insert_insert_eq. by eapply listener_heap_lookup.
  - by rewrite lookup_insert_eq.
Qed.

Lemma Popup_taskText_click_twice_witness :
  ∃ w1 w2,
    Popup.taskText_click
      (mkElement (mkTask (Some 2%Z) "two" false) (VArray 0) 1 false) two_lists_world
    = Some (tt, w1)
    ∧ heap w1 !! 0
      = Some (<[1 := mkTask (Some 2%Z) "two" (negb false)]> order_example)
    ∧ storage w1 !! key_of false
      = Some (SArray (<[1 := mkTask (Some 2%Z) "two" (negb false)]> order_example))
    ∧ Popup.taskText_click
        (mkElement (mkTask (Some 2%Z) "two" false) (VArray 0) 1 false) w1
      = Some (tt, w2)
    ∧ heap w2 !! 0 = Some order_example
    ∧ storage w2 !! key_of false = Some (SArray order_example).
Proof.
  apply (Popup_taskText_click_twice 0 order_example 1
           (mkTask (Some 2%Z) "two" false) (mkTask (Some 2%Z) "two" false)
           false two_lists_world).
  - reflexivity.
  - reflexivity.
Defined.



(** ** Rendering *)

Lemma length_items isSp v l : length (items isSp v l) = length l.
Proof.
  rewrite <- (length_map el_task). change (map el_task ?x) with (shown x).
  rewrite shown_items. apply (length_partitioned l).
Qed.

(** X5. [renderLists] replaces what the page showed: afterwards each of
    the two lists of the page has one item for each task of its array,
    whatever items there were before, and the spillover section is
    displayed exactly when the spillover array is not empty.  The text
    field is not touched. *)
Theorem renderLists_one_item_per_task a b l m w :
  heap w !! a = Some l →
  heap w !! b = Some m →
  ∃ w',
    renderLists (VArray a) (VArray b) w = Some (tt, w')
    ∧ length (taskList (document w')) = length l
    ∧ length (spilloverList (document w')) = length m
    ∧ (spilloverSection_display (document w') = true ↔ m ≠ [])
    ∧ taskInput_value (document w') = taskInput_value (document w).
Proof.
  intros Ha Hb. eexists. split; [by apply renderLists_eq|]. simpl.
  split; [apply length_items|]. split; [apply length_items|]. split; [|done].
  rewrite sort_by_completed.
  change (List.filter _ _ ++ _) with (partitioned m). rewrite length_partitioned.
  destruct m; simpl; split; try done.
Qed.

Lemma renderLists_one_item_per_task_witness :
  ∃ w',
    renderLists (VArray 0) (VArray 1) two_lists_world = Some (tt, w')
    ∧ length (taskList (document w')) = length order_example
    ∧ length (spilloverList (document w')) = length example_tasks
    ∧ (spilloverSection_display (document w') = true ↔ example_tasks ≠ [])
    ∧ taskInput_value (document w') = taskInput_value (document two_lists_world).
Proof.
  apply (renderLists_one_item_per_task 0 1 order_example example_tasks
           two_lists_world).
  - reflexivity.
  - reflexivity.
Defined.

Lemma same_id_task_unique (l : list Task) t t' :
  NoDup (map id l) → t ∈ l → t' ∈ l → id t = id t' → t = t'.
Proof.
  intros Hnd Ht Ht' Hid.
  apply list_elem_of_split in Ht' as (l1 & l2 & ->).
  apply elem_of_app in Ht as [Ht|[->|Ht]%elem_of_cons]; [|done|].
  - exfalso. eapply (NoDup_ids_middle l1 l2 t' t); [done| |done].
    apply elem_of_app. by left.
  - exfalso. eapply (NoDup_ids_middle l1 l2 t' t); [done| |done].
    apply elem_of_app. by right.
Qed.

(** X6. Every item that [renderLists] makes points into the array it was
    given: at the index of the item there is a task with the id of the task
    that the item shows, the first one of the array with that id; when the
    ids of the array are distinct it is the task shown. *)
Theorem rendered_item_points_at_its_task isSp a b l m w w' e :
  heap w !! a = Some l →
  heap w !! b = Some m →
  renderLists (VArray a) (VArray b) w = Some (tt, w') →
  e ∈ items_of isSp (document w') →
  el_listArray e = VArray (if isSp then b else a)
  ∧ el_isSpillover e = isSp
  ∧ el_task e ∈ (if isSp then m else l)
  ∧ ∃ t',
      (if isSp then m else l) !! el_index e = Some t'
      ∧ id t' = id (el_task e)
      ∧ (∀ j u, j < el_index e → (if isSp then m else l) !! j = Some u →
                id u ≠ id (el_task e))
      ∧ (NoDup (map id (if isSp then m else l)) → t' = el_task e).
Proof.
  intros Ha Hb. rewrite (renderLists_eq a b l m) by done. intros [= <-] He.
  set (c := if isSp then b else a). set (lst := if isSp then m else l).
  assert (Hit : items_of isSp (document (rendered a b l m w))
                = items isSp (VArray c) lst) by (unfold c, lst; by destruct isSp).
  rewrite Hit in He. apply elem_of_items in He as (t & i & -> & Ht & Hi). simpl.
  split; [done|]. split; [done|]. split; [done|].
  destruct (findIndex_Some _ _ _ Hi) as (l1 & t' & l2 & Hl & Hlen & Hsame & Hl1).
  unfold same_id in Hsame. apply bool_decide_eq_true_1 in Hsame.
  exists t'. split_and!.
  - rewrite Hl, <- Hlen. by apply list_lookup_middle.
  - done.
  - intros j u Hj Hu. rewrite Hl, lookup_app_l in Hu by lia.
    rewrite Forall_forall in Hl1.
    specialize (Hl1 u (list_elem_of_lookup_2 _ _ _ Hu)).
    unfold same_id in Hl1. by apply bool_decide_eq_false_1 in Hl1.
  - intros Hnd. symmetry. apply (same_id_task_unique lst); try done.
    rewrite Hl. apply elem_of_app. right. by left.
Qed.

Lemma rendered_item_points_at_its_task_witness :
  el_listArray example_item = VArray 0
  ∧ el_isSpillover example_item = false
  ∧ el_task example_item ∈ order_example
  ∧ ∃ t',
      order_example !! el_index example_item = Some t'
      ∧ id t' = id (el_task example_item)
      ∧ (∀ j u, j < el_index example_item → order_example !! j = Some u →
                id u ≠ id (el_task example_item))
      ∧ (NoDup (map id order_example) → t' = el_task example_item).
Proof.
  apply (rendered_item_points_at_its_task false 0 1 order_example example_tasks
           two_lists_world
           (rendered 0 1 order_example example_tasks two_lists_world)
           example_item).
  - reflexivity.
  - reflexivity.
  - reflexivity.
  - vm_compute. by left.
Defined.

(** *** The page of [popup.js] *)

Lemma taskList_appendChild_eq e w :
  taskList_appendChild e w
  = Some (tt, mkWorld (heap w) (storage w)
                (mkDocument (taskList (document w) ++ [e])
                   (spilloverList (document w))
                   (spilloverSection_display (document w))
                   (taskInput_value (document w)) (listeners_set (document w)))
                (pending w) (saves w)).
Proof. reflexivity. Qed.

Lemma spilloverList_appendChild_eq e w :
  spilloverList_appendChild e w
  = Some (tt, mkWorld (heap w) (storage w)
                (mkDocument (taskList (document w))
                   (spilloverList (document w) ++ [e])
                   (spilloverSection_display (document w))
                   (taskInput_value (document w)) (listeners_set (document w)))
                (pending w) (saves w)).
Proof. reflexivity. Qed.

Lemma forEach_append_taskList {A} (g : A → Element) ps w :
  forEach (λ p, taskList_appendChild (g p)) ps w
  = Some (tt, mkWorld (heap w) (storage w)
                (mkDocument (taskList (document w) ++ map g ps)
                   (spilloverList (document w))
                   (spilloverSection_display (document w))
                   (taskInput_value (document w)) (listeners_set (document w)))
                (pending w) (saves w)).
Proof.
  revert w. induction ps as [|p ps IH]; intros w; simpl.
  - unfold ret. rewrite app_nil_r. by destruct w as [? ? [] ? ?].
  - erewrite bind_eq by apply taskList_appendChild_eq. rewrite IH. simpl.
    by rewrite <- (assoc_L (++)).
Qed.

Lemma forEach_append_spilloverList {A} (g : A → Element) ps w :
  forEach (λ p, spilloverList_appendChild (g p)) ps w
  = Some (tt, mkWorld (heap w) (storage w)
                (mkDocument (taskList (document w))
                   (spilloverList (document w) ++ map g ps)
                   (spilloverSection_display (document w))
                   (taskInput_value (document w)) (listeners_set (document w)))
                (pending w) (saves w)).
Proof.
  revert w. induction ps as [|p ps IH]; intros w; simpl.
  - unfold ret. rewrite app_nil_r. by destruct w as [? ? [] ? ?].
  - erewrite bind_eq by apply spilloverList_appendChild_eq. rewrite IH. simpl.
    by rewrite <- (assoc_L (++)).
Qed.

Lemma map_imap_pair (isSp : bool) (v : Val) (l : list Task) :
  map (λ p : nat * Task, Popup.createTaskElement p.2 v p.1 isSp) (imap pair l)
  = Popup_items isSp v l.
Proof.
  unfold Popup_items. change (map ?f ?x) with (f <$> x).
  rewrite fmap_imap. by apply imap_ext.
Qed.

Lemma Popup_renderLists_eq a b l m w :
  heap w !! a = Some l →
  heap w !! b = Some m →
  Popup.renderLists (VArray a) (VArray b) w = Some (tt, Popup_rendered a b l m w).
Proof.
  destruct w as [h s [tl sl sd ti ls] p sv]. simpl. intros Ha Hb.
  unfold Popup.renderLists.
  erewrite bind_eq by apply set_taskList_eq.
  erewrite bind_eq by apply set_spilloverList_eq.
  erewrite bind_eq.
  2:{ unfold Popup.array_forEach_indexed.
      erewrite bind_eq by (by apply elements_of_eq).
      apply (forEach_append_taskList
               (λ p : nat * Task, Popup.createTaskElement p.2 (VArray a) p.1 false)). }
  simpl. rewrite map_imap_pair.
  erewrite bind_eq by (by apply elements_of_eq).
  unfold Popup_rendered. simpl.
  destruct m as [|t m].
  - reflexivity.
  - change (0 <? length (t :: m)) with true. cbv iota.
    erewrite bind_eq by apply set_spilloverSection_display_eq.
    unfold Popup.array_forEach_indexed.
    erewrite bind_eq by (by apply elements_of_eq).
    rewrite (forEach_append_spilloverList
               (λ p : nat * Task, Popup.createTaskElement p.2 (VArray b) p.1 true)).
    by rewrite (map_imap_pair true (VArray b) (t :: m)).
Qed.

(** X7. [Popup.renderLists] shows each list in the order of its array: the
    item at a position shows the task at that position and has that
    position as index.  The spillover section is displayed exactly when
    the spillover array is not empty.  No array is made or changed and
    nothing is written. *)
Theorem Popup_renderLists_in_list_order a b l m w :
  heap w !! a = Some l →
  heap w !! b = Some m →
  ∃ w',
    Popup.renderLists (VArray a) (VArray b) w = Some (tt, w')
    ∧ (∀ k, taskList (document w') !! k
            = (λ t, mkElement t (VArray a) k false) <$> l !! k)
    ∧ (∀ k, spilloverList (document w') !! k
            = (λ t, mkElement t (VArray b) k true) <$> m !! k)
    ∧ (spilloverSection_display (document w') = true ↔ m ≠ [])
    ∧ heap w' = heap w ∧ storage w' = storage w ∧ saves w' = saves w.
Proof.
  intros Ha Hb. eexists. split; [by apply Popup_renderLists_eq|]. simpl.
  split; [intros k; apply list_lookup_imap|].
  split; [intros k; apply list_lookup_imap|].
  split; [|done]. destruct m; simpl; split; done.
Qed.

Lemma Popup_renderLists_in_list_order_witness :
  ∃ w',
    Popup.renderLists (VArray 0) (VArray 1) two_lists_world = Some (tt, w')
    ∧ (∀ k, taskList (document w') !! k
            = (λ t, mkElement t (VArray 0) k false) <$> order_example !! k)
    ∧ (∀ k, spilloverList (document w') !! k
            = (λ t, mkElement t (VArray 1) k true) <$> example_tasks !! k)
    ∧ (spilloverSection_display (document w') = true ↔ example_tasks ≠ [])
    ∧ heap w' = heap two_lists_world ∧ storage w' = storage two_lists_world
    ∧ saves w' = saves two_lists_world.
Proof.
  apply (Popup_renderLists_in_list_order 0 1 order_example example_tasks
           two_lists_world).
  - reflexivity.
  - reflexivity.
Defined.

Lemma Popup_deleteBtn_click_eq e w :
  Popup.deleteBtn_click e w = deleteBtn_click e w.
Proof. reflexivity. Qed.

(** X8. In [popup.js] the delete button of the item at a position removes
    the task at that position, the task the item shows, whatever the ids
    are: the tasks before and after it stay in their order, in the array
    and in the stored list, in one write of the key of that list. *)
Theorem Popup_delete_removes_shown_task isSp a b l m w w1 k e :
  heap w !! a = Some l →
  heap w !! b = Some m →
  Popup.renderLists (VArray a) (VArray b) w = Some (tt, w1) →
  items_of isSp (document w1) !! k = Some e →
  ∃ w2 l1 l2,
    Popup.deleteBtn_click e w1 = Some (tt, w2)
    ∧ (if isSp then m else l) = l1 ++ el_task e :: l2
    ∧ length l1 = k
    ∧ heap w2 !! (if isSp then b else a) = Some (l1 ++ l2)
    ∧ storage w2 !! key_of isSp = Some (SArray (l1 ++ l2))
    ∧ saves w2 = saves w1 ++ [ {[ key_of isSp := SArray (l1 ++ l2) ]} ].
Proof.
  intros Ha Hb. rewrite (Popup_renderLists_eq a b l m) by done. intros [= <-].
  set (c := if isSp then b else a). set (lst := if isSp then m else l).
  assert (Hc : heap w !! c = Some lst) by (unfold c, lst; by destruct isSp).
  assert (Hit : items_of isSp (document (Popup_rendered a b l m w))
                = Popup_items isSp (VArray c) lst)
    by (unfold c, lst; by destruct isSp).
  clearbody c lst.
  rewrite Hit. unfold Popup_items. rewrite list_lookup_imap.
  destruct (lst !! k) as [t|] eqn:Hk; [|done]. intros [= <-].
  apply list_elem_of_split_length in Hk as (l1 & l2 & Hl & Hlen).
  eexists. exists l1, l2.
  split; [rewrite Popup_deleteBtn_click_eq;
          exact (deleteBtn_click_eq c lst t k isSp (Popup_rendered a b l m w) Hc)|].
  simpl. rewrite Hl, Hlen, splice_middle.
  split_and!; try done.
  - apply list_lookup_insert_eq. by eapply lookup_lt_Some.
  - by rewrite lookup_insert_eq.
Qed.

Lemma Popup_delete_removes_shown_task_witness :
  ∃ w2 l1 l2,
    Popup.deleteBtn_click example_item
      (Popup_rendered 0 1 order_example example_tasks two_lists_world)
    = Some (tt, w2)
    ∧ order_example = l1 ++ el_task example_item :: l2
    ∧ length l1 = 1
    ∧ heap w2 !! 0 = Some (l1 ++ l2)
    ∧ storage w2 !! key_of false = Some (SArray (l1 ++ l2))
    ∧ saves w2
      = saves (Popup_rendered 0 1 order_example example_tasks two_lists_world)
        ++ [ {[ key_of false := SArray (l1 ++ l2) ]} ].
Proof.
  apply (Popup_delete_removes_shown_task false 0 1 order_example example_tasks
           two_lists_world
           (Popup_rendered 0 1 order_example example_tasks two_lists_world)
           1 example_item).
  - reflexivity.
  - reflexivity.
  - reflexivity.
  - reflexivity.
Defined.

(** ** The storage *)


(** X10. What is saved is what is read back: after [saveData] of an array
    under a key, [getData] of the key returns a new array, not the one
    saved, with the same tasks in the same order; after [saveData] of a
    string that is not empty it returns the string.  The other keys are
    not touched. *)
Theorem saveData_getData_round_trip key a l s w :
  heap w !! a = Some l →
  s ≠ "" →
  (∃ a' w',
      (saveData {[ key := VArray a ]} ;; getData key) w = Some (VArray a', w')
      ∧ a' ≠ a
      ∧ heap w' !! a' = Some l
      ∧ heap w' !! a = Some l
      ∧ (∀ k, k ≠ key → storage w' !! k = storage w !! k))
  ∧ (∃ w',
      (saveData {[ key := VString s ]} ;; getData key) w = Some (VString s, w')
      ∧ heap w' = heap w
      ∧ (∀ k, k ≠ key → storage w' !! k = storage w !! k)).
Proof.
  intros Ha Hs. split.
  - erewrite bind_eq by (apply saveData_one; simpl; by rewrite Ha).
    do 2 eexists. split.
    { apply (getData_list key (Some l)). simpl. by rewrite lookup_insert_eq. }
    simpl. split_and!.
    + apply lookup_lt_Some in Ha. lia.
    + apply lookup_alloc_new.
    + by apply lookup_alloc_old.
    + intros k Hk. by rewrite lookup_insert_ne.
  - erewrite bind_eq by (by apply saveData_one).
    eexists. split.
    { apply getData_string; [|done]. simpl. by rewrite lookup_insert_eq. }
    simpl. split; [done|]. intros k Hk. by rewrite lookup_insert_ne.
Qed.

Lemma saveData_getData_round_trip_witness :
  (∃ a' w',
      (saveData {[ TODAY_TASKS_KEY := VArray 0 ]} ;; getData TODAY_TASKS_KEY)
        example_world = Some (VArray a', w')
      ∧ a' ≠ 0
      ∧ heap w' !! a' = Some example_tasks
      ∧ heap w' !! 0 = Some example_tasks
      ∧ (∀ k, k ≠ TODAY_TASKS_KEY → storage w' !! k = storage example_world !! k))
  ∧ (∃ w',
      (saveData {[ TODAY_TASKS_KEY := VString "2024-01-02" ]} ;;
       getData TODAY_TASKS_KEY) example_world = Some (VString "2024-01-02", w')
      ∧ heap w' = heap example_world
      ∧ (∀ k, k ≠ TODAY_TASKS_KEY → storage w' !! k = storage example_world !! k)).
Proof.
  apply (saveData_getData_round_trip TODAY_TASKS_KEY 0 example_tasks "2024-01-02"
           example_world).
  - reflexivity.
  - discriminate.
Defined.

(** ** The rollover, case by case *)

(** X11. When the last open date is the current date, [handleDailyRollover],
    in both revisions, writes nothing: it returns the today value it was
    given and a copy of the stored spillover list, an empty array if none is
    stored, and the storage and the arrays there were are unchanged. *)
Theorem handleDailyRollover_same_day todayDate todayTasks stored w :
  todayDate ≠ "" →
  storage w !! SPILLOVER_TASKS_KEY = SArray <$> stored →
  ∃ s' w',
    handleDailyRollover todayDate todayTasks (VString todayDate) w
      = Some ((todayTasks, VArray s'), w')
    ∧ Popup.handleDailyRollover todayDate todayTasks (VString todayDate) w
      = Some ((todayTasks, VArray s'), w')
    ∧ heap w' !! s' = Some (default [] stored)
    ∧ storage w' = storage w
    ∧ saves w' = saves w
    ∧ (∀ a l, heap w !! a = Some l → heap w' !! a = Some l).
Proof.
  intros Hd Hs.
  assert (H : handleDailyRollover todayDate todayTasks (VString todayDate) w
              = Some ((todayTasks, VArray (length (heap w))),
                      allocated (default [] stored) w)).
  { unfold handleDailyRollover, strict_ne. simpl.
    rewrite bool_decide_eq_false_2 by done. simpl.
    rewrite bool_decide_eq_true_2 by done. simpl.
    erewrite bind_eq by reflexivity.
    by erewrite bind_eq by (by apply getData_list). }
  do 2 eexists. split; [exact H|]. rewrite Popup_handleDailyRollover_eq.
  split; [exact H|]. simpl. split_and!; try done.
  - apply lookup_alloc_new.
  - intros a l. apply lookup_alloc_old.
Qed.

Lemma handleDailyRollover_same_day_witness :
  ∃ s' w',
    handleDailyRollover "2024-01-02" (VArray 0) (VString "2024-01-02") two_lists_world
      = Some ((VArray 0, VArray s'), w')
    ∧ Popup.handleDailyRollover "2024-01-02" (VArray 0) (VString "2024-01-02")
        two_lists_world
      = Some ((VArray 0, VArray s'), w')
    ∧ heap w' !! s' = Some example_tasks
    ∧ storage w' = storage two_lists_world
    ∧ saves w' = saves two_lists_world
    ∧ (∀ a l, heap two_lists_world !! a = Some l → heap w' !! a = Some l).
Proof.
  apply (handleDailyRollover_same_day "2024-01-02" (VArray 0) (Some example_tasks)
           two_lists_world).
  - discriminate.
  - reflexivity.
Defined.

(** X12. A storage with no last open date.  In the later revision
    [initialize] hands to [handleDailyRollover] the empty array that
    [getData] returns for the missing date, and the lists are rolled over:
    the incomplete stored tasks become the spillover list, the today list
    is emptied, the date is stored, in one write.  In [popup.js] the date
    arrives as [undefined]: the date alone is written and the stored lists
    are returned. *)
Theorem no_stored_date_in_the_two_revisions todayDate today spill w :
  storage w !! TODAY_TASKS_KEY = SArray <$> today →
  storage w !! SPILLOVER_TASKS_KEY = SArray <$> spill →
  storage w !! LAST_OPEN_DATE_KEY = None →
  (∃ t s w1,
      reconcile todayDate w = Some ((VArray t, VArray s), w1)
      ∧ heap w1 !! t = Some []
      ∧ heap w1 !! s = Some (List.filter incomplete (default [] today))
      ∧ saves w1
        = saves w
          ++ [ {[ SPILLOVER_TASKS_KEY
                    := SArray (List.filter incomplete (default [] today));
                  TODAY_TASKS_KEY := SArray [];
                  LAST_OPEN_DATE_KEY := SString todayDate ]} ]
      ∧ storage w1 !! TODAY_TASKS_KEY = Some (SArray [])
      ∧ storage w1 !! SPILLOVER_TASKS_KEY
        = Some (SArray (List.filter incomplete (default [] today)))
      ∧ storage w1 !! LAST_OPEN_DATE_KEY = Some (SString todayDate))
  ∧ (∃ t s w1,
      Popup.reconcile todayDate w = Some ((VArray t, VArray s), w1)
      ∧ heap w1 !! t = Some (default [] today)
      ∧ heap w1 !! s = Some (default [] spill)
      ∧ saves w1 = saves w ++ [ {[ LAST_OPEN_DATE_KEY := SString todayDate ]} ]
      ∧ storage w1 !! TODAY_TASKS_KEY = storage w !! TODAY_TASKS_KEY
      ∧ storage w1 !! SPILLOVER_TASKS_KEY = storage w !! SPILLOVER_TASKS_KEY
      ∧ storage w1 !! LAST_OPEN_DATE_KEY = Some (SString todayDate)).
Proof.
  intros Ht Hs Hl. split.
  - unfold reconcile.
    rewrite (bind_eq _ _ _ _ _ (getData_list _ _ _ Ht)).
    erewrite bind_eq by (by apply (getData_list LAST_OPEN_DATE_KEY None)).
    do 3 eexists. split.
    { apply (handleDailyRollover_new_day_eq _ _ (length (heap w)) (default [] today));
        [simpl; apply lookup_allocated_twice|done|done]. }
    simpl. split_and!; try done; try storage_lookup.
    + rewrite lookup_app_r by (rewrite !length_app; simpl; lia).
      by replace (S _ - _) with 1 by (rewrite !length_app; simpl; lia).
    + rewrite lookup_app_r by (rewrite !length_app; simpl; lia).
      by replace (_ - _) with 0 by (rewrite !length_app; simpl; lia).
  - do 3 eexists.
    split; [apply (Popup_reconcile_first_run _ today spill); auto|]. simpl.
    split_and!; try done; try storage_lookup; apply lookup_allocated_twice.
Qed.

Lemma no_stored_date_in_the_two_revisions_witness :
  (∃ t s w1,
      reconcile "2024-01-02" typing_world = Some ((VArray t, VArray s), w1)
      ∧ heap w1 !! t = Some []
      ∧ heap w1 !! s = Some (List.filter incomplete example_tasks)
      ∧ saves w1
        = saves typing_world
          ++ [ {[ SPILLOVER_TASKS_KEY := SArray (List.filter incomplete example_tasks);
                  TODAY_TASKS_KEY := SArray [];
                  LAST_OPEN_DATE_KEY := SString "2024-01-02" ]} ]
      ∧ storage w1 !! TODAY_TASKS_KEY = Some (SArray [])
      ∧ storage w1 !! SPILLOVER_TASKS_KEY
        = Some (SArray (List.filter incomplete example_tasks))
      ∧ storage w1 !! LAST_OPEN_DATE_KEY = Some (SString "2024-01-02"))
  ∧ (∃ t s w1,
      Popup.reconcile "2024-01-02" typing_world = Some ((VArray t, VArray s), w1)
      ∧ heap w1 !! t = Some example_tasks
      ∧ heap w1 !! s = Some []
      ∧ saves w1 = saves typing_world
                   ++ [ {[ LAST_OPEN_DATE_KEY := SString "2024-01-02" ]} ]
      ∧ storage w1 !! TODAY_TASKS_KEY = storage typing_world !! TODAY_TASKS_KEY
      ∧ storage w1 !! SPILLOVER_TASKS_KEY
        = storage typing_world !! SPILLOVER_TASKS_KEY
      ∧ storage w1 !! LAST_OPEN_DATE_KEY = Some (SString "2024-01-02")).
Proof.
  apply (no_stored_date_in_the_two_revisions "2024-01-02" (Some example_tasks) None
           typing_world).
  - reflexivity.
  - reflexivity.
  - reflexivity.
Defined.

(** ** The entry point *)

(** [initialize], from what its reconciliation returns. *)
Lemma initialize_after_reconcile todayDate w t s w1 lt ls :
  reconcile todayDate w = Some ((VArray t, VArray s), w1) →
  heap w1 !! t = Some lt →
  heap w1 !! s = Some ls →
  initialize todayDate w
  = Some (tt, mkWorld (heap w1 ++ [sort_by by_completed lt; sort_by by_completed ls])
                (storage w1)
                (mkDocument (items false (VArray t) lt) (items true (VArray s) ls)
                   (0 <? length ls) (taskInput_value (document w1)) true)
                (pending w1) (saves w1)).
Proof.
  intros H Ht Hs. rewrite initialize_reconcile.
  rewrite (bind_eq _ _ _ _ _ H). cbn [fst snd].
  erewrite bind_eq by (by apply renderLists_eq).
  rewrite (bind_eq get_world _ _ _ _ eq_refl).
  assert (Hlen : length (sort_by by_completed ls) = length ls).
  { rewrite sort_by_completed. apply (length_partitioned ls). }
  unfold rendered. simpl. rewrite Hlen.
  by destruct (listeners_set (document w1)).
Qed.

(** X13. [initialize] on the day that is stored as last open date: nothing
    is written; the page shows the stored today list and the stored
    spillover list, each with its incomplete tasks first, and the spillover
    section exactly when that list is not empty; the listeners of the form
    are marked as set and the text field keeps its text. *)
Theorem initialize_on_the_stored_day todayDate today spill w :
  todayDate ≠ "" →
  storage w !! TODAY_TASKS_KEY = SArray <$> today →
  storage w !! SPILLOVER_TASKS_KEY = SArray <$> spill →
  storage w !! LAST_OPEN_DATE_KEY = Some (SString todayDate) →
  ∃ w',
    initialize todayDate w = Some (tt, w')
    ∧ storage w' = storage w
    ∧ saves w' = saves w
    ∧ shown (taskList (document w'))
      = List.filter incomplete (default [] today)
        ++ List.filter completed (default [] today)
    ∧ shown (spilloverList (document w'))
      = List.filter incomplete (default [] spill)
        ++ List.filter completed (default [] spill)
    ∧ (spilloverSection_display (document w') = true ↔ default [] spill ≠ [])
    ∧ listeners_set (document w') = true
    ∧ taskInput_value (document w') = taskInput_value (document w)
    ∧ pending w' = pending w.
Proof.
  intros Hd Ht Hs Hl. eexists. split.
  { eapply initialize_after_reconcile.
    - by apply (reconcile_same_day _ today spill).
    - apply lookup_allocated_twice.
    - apply lookup_allocated_twice. }
  simpl. split_and!; try done; try apply shown_items.
  destruct (default [] spill); simpl; split; done.
Qed.

Lemma initialize_on_the_stored_day_witness :
  ∃ w',
    initialize "2024-01-02" two_lists_world = Some (tt, w')
    ∧ storage w' = storage two_lists_world
    ∧ saves w' = saves two_lists_world
    ∧ shown (taskList (document w'))
      = List.filter incomplete order_example ++ List.filter completed order_example
    ∧ shown (spilloverList (document w'))
      = List.filter incomplete example_tasks ++ List.filter completed example_tasks
    ∧ (spilloverSection_display (document w') = true ↔ example_tasks ≠ [])
    ∧ listeners_set (document w') = true
    ∧ taskInput_value (document w') = taskInput_value (document two_lists_world)
    ∧ pending w' = pending two_lists_world.
Proof.
  apply (initialize_on_the_stored_day "2024-01-02" (Some order_example)
           (Some example_tasks) two_lists_world).
  - discriminate.
  - reflexivity.
  - reflexivity.
  - reflexivity.
Defined.

Lemma filter_incomplete_idem l :
  List.filter incomplete (List.filter incomplete l) = List.filter incomplete l.
Proof.
  induction l as [|t l IH]; simpl; [done|].
  destruct (incomplete t) eqn:E; simpl; [|done]. by rewrite E, IH.
Qed.

Lemma filter_completed_incomplete l :
  List.filter completed (List.filter incomplete l) = [].
Proof.
  induction l as [|t l IH]; simpl; [done|].
  unfold incomplete at 1. destruct (completed t) eqn:E; simpl; [done|].
  by rewrite E.
Qed.

(** X14. [initialize] on another day than the one stored, or with no date
    stored: the stored today list is emptied and its incomplete tasks are
    stored as the spillover list, with the date; the page shows an empty
    today list and, in their order, the tasks that spilled over; the
    spillover section is displayed exactly when there are such tasks. *)
Theorem initialize_on_a_new_day todayDate today w :
  storage w !! TODAY_TASKS_KEY = SArray <$> today →
  storage w !! LAST_OPEN_DATE_KEY ≠ Some (SString todayDate) →
  ∃ w',
    initialize todayDate w = Some (tt, w')
    ∧ storage w' !! TODAY_TASKS_KEY = Some (SArray [])
    ∧ storage w' !! SPILLOVER_TASKS_KEY
      = Some (SArray (List.filter incomplete (default [] today)))
    ∧ storage w' !! LAST_OPEN_DATE_KEY = Some (SString todayDate)
    ∧ shown (taskList (document w')) = []
    ∧ shown (spilloverList (document w'))
      = List.filter incomplete (default [] today)
    ∧ (spilloverSection_display (document w') = true
       ↔ List.filter incomplete (default [] today) ≠ [])
    ∧ listeners_set (document w') = true
    ∧ taskInput_value (document w') = taskInput_value (document w).
Proof.
  intros Ht Hl.
  destruct (reconcile_new_day todayDate today w Ht (or_intror Hl))
    as (t & s & w1 & H & Ht1 & Hs1 & Hst & Hdoc & Hp).
  eexists. split; [by eapply initialize_after_reconcile|]. simpl.
  rewrite Hst, Hdoc.
  split_and!; try done; try storage_lookup.
  - rewrite shown_items. by rewrite filter_incomplete_idem, filter_completed_incomplete, app_nil_r.
  - destruct (List.filter incomplete (default [] today)); simpl; split; done.
Qed.

Lemma initialize_on_a_new_day_witness :
  ∃ w',
    initialize "2024-01-03" two_lists_world = Some (tt, w')
    ∧ storage w' !! TODAY_TASKS_KEY = Some (SArray [])
    ∧ storage w' !! SPILLOVER_TASKS_KEY
      = Some (SArray (List.filter incomplete order_example))
    ∧ storage w' !! LAST_OPEN_DATE_KEY = Some (SString "2024-01-03")
    ∧ shown (taskList (document w')) = []
    ∧ shown (spilloverList (document w')) = List.filter incomplete order_example
    ∧ (spilloverSection_display (document w') = true
       ↔ List.filter incomplete order_example ≠ [])
    ∧ listeners_set (document w') = true
    ∧ taskInput_value (document w') = taskInput_value (document two_lists_world).
Proof.
  apply (initialize_on_a_new_day "2024-01-03" (Some order_example) two_lists_world).
  - reflexivity.
  - discriminate.
Defined.

(** ** Adding a task, continued *)

Lemma Popup_addTask_empty_trim w :
  trim (taskInput_value (document w)) = "" → Popup.addTask w = Some (tt, w).
Proof. intros H. unfold Popup.addTask, bind, get_world. simpl. by rewrite H. Qed.

(** X15. [addTask] empties the text field, so that a second run right
    after a first one that added a task (the button pressed twice, the
    Enter key repeated) adds nothing: two runs in a row leave the world
    that one run leaves.  In both revisions. *)
Theorem addTask_twice_adds_once now now' stored w :
  trim (taskInput_value (document w)) ≠ "" →
  storage w !! TODAY_TASKS_KEY = SArray <$> stored →
  (∃ w', addTask now w = Some (tt, w')
         ∧ taskInput_value (document w') = ""
         ∧ (addTask now ;; addTask now') w = Some (tt, w'))
  ∧ (∃ w', Popup.addTask w = Some (tt, w')
           ∧ taskInput_value (document w') = ""
           ∧ (Popup.addTask ;; Popup.addTask) w = Some (tt, w')).
Proof.
  intros Ht Hs. split.
  - eexists. split; [by apply addTask_eq|]. split; [done|].
    erewrite bind_eq by (by apply addTask_eq).
    by apply addTask_empty_trim.
  - eexists. split; [by apply Popup_addTask_eq|]. split; [done|].
    erewrite bind_eq by (by apply Popup_addTask_eq).
    by apply Popup_addTask_empty_trim.
Qed.

Lemma addTask_twice_adds_once_witness :
  (∃ w', addTask 1700000000000 typing_world = Some (tt, w')
         ∧ taskInput_value (document w') = ""
         ∧ (addTask 1700000000000 ;; addTask 1700000000001) typing_world
           = Some (tt, w'))
  ∧ (∃ w', Popup.addTask typing_world = Some (tt, w')
           ∧ taskInput_value (document w') = ""
           ∧ (Popup.addTask ;; Popup.addTask) typing_world = Some (tt, w')).
Proof.
  apply (addTask_twice_adds_once 1700000000000 1700000000001 (Some example_tasks)
           typing_world).
  - discriminate.
  - reflexivity.
Defined.

Lemma trimStart_split s :
  ∃ pre, s = pre +:+ trimStart s
         ∧ onlyWhiteSpace pre = true
         ∧ first_is_ws (trimStart s) = false.
Proof.
  induction s as [|c s (pre & Hs & Hpre & Hf)]; simpl.
  - by exists "".
  - destruct (isWhiteSpace c) eqn:E.
    + exists (String c pre). split; [exact (f_equal (String c) Hs)|].
      simpl. by rewrite E, Hpre.
    + exists "". split; [reflexivity|]. simpl. by rewrite E.
Qed.

Lemma trimEnd_split s :
  ∃ post, s = trimEnd s +:+ post
          ∧ onlyWhiteSpace post = true
          ∧ last_is_ws (trimEnd s) = false.
Proof.
  induction s as [|c s (post & Hs & Hpost & Hl)]; simpl.
  - by exists "".
  - destruct (trimEnd s) as [|c' r] eqn:E.
    + change (s = post) in Hs. subst post. destruct (isWhiteSpace c) eqn:Ec.
      * exists (String c s). split; [reflexivity|]. simpl. by rewrite Ec, Hpost.
      * exists s. split; [reflexivity|]. simpl. by rewrite Ec.
    + exists post. split; [exact (f_equal (String c) Hs)|]. by split.
Qed.

Lemma trimEnd_first s :
  trimEnd s ≠ "" → first_is_ws (trimEnd s) = first_is_ws s.
Proof.
  destruct s as [|c s]; simpl; [done|].
  destruct (trimEnd s); [|done].
  destruct (isWhiteSpace c) eqn:E; simpl; [by intros []|by rewrite E].
Qed.

(** [trim] takes the white space off the two ends and nothing else. *)
Lemma trim_split s :
  ∃ pre post,
    s = pre +:+ trim s +:+ post
    ∧ onlyWhiteSpace pre = true ∧ onlyWhiteSpace post = true
    ∧ (trim s ≠ "" → first_is_ws (trim s) = false ∧ last_is_ws (trim s) = false).
Proof.
  destruct (trimStart_split s) as (pre & Hs & Hpre & Hf).
  destruct (trimEnd_split (trimStart s)) as (post & Hr & Hpost & Hl).
  exists pre, post. unfold trim. split; [by rewrite <- Hr|].
  split; [done|]. split; [done|].
  intros Hne. split; [|done]. by rewrite trimEnd_first.
Qed.

(** X16. The text of the task that [addTask] stores is the text of the
    field without the white space at its two ends: the field is that text
    between two runs of white space, and the text is not empty and neither
    starts nor ends with white space.  In both revisions. *)
Theorem addTask_stores_trimmed_text now stored w :
  trim (taskInput_value (document w)) ≠ "" →
  storage w !! TODAY_TASKS_KEY = SArray <$> stored →
  ∃ x pre post w1 w2,
    taskInput_value (document w) = pre +:+ x +:+ post
    ∧ onlyWhiteSpace pre = true ∧ onlyWhiteSpace post = true
    ∧ x ≠ "" ∧ first_is_ws x = false ∧ last_is_ws x = false
    ∧ addTask now w = Some (tt, w1)
    ∧ storage w1 !! TODAY_TASKS_KEY
      = Some (SArray (default [] stored ++ [mkTask (Some now) x false]))
    ∧ Popup.addTask w = Some (tt, w2)
    ∧ storage w2 !! TODAY_TASKS_KEY
      = Some (SArray (default [] stored ++ [mkTask None x false])).
Proof.
  intros Ht Hs.
  destruct (trim_split (taskInput_value (document w)))
    as (pre & post & Hsplit & Hpre & Hpost & Hends).
  destruct (Hends Ht) as [Hf Hl].
  exists (trim (taskInput_value (document w))), pre, post. do 2 eexists.
  split_and!; try done.
  - by apply addTask_eq.
  - simpl. by rewrite lookup_insert_eq.
  - by apply Popup_addTask_eq.
  - simpl. by rewrite lookup_insert_eq.
Qed.

Lemma addTask_stores_trimmed_text_witness :
  ∃ x pre post w1 w2,
    taskInput_value (document typing_world) = pre +:+ x +:+ post
    ∧ onlyWhiteSpace pre = true ∧ onlyWhiteSpace post = true
    ∧ x ≠ "" ∧ first_is_ws x = false ∧ last_is_ws x = false
    ∧ addTask 1700000000000 typing_world = Some (tt, w1)
    ∧ storage w1 !! TODAY_TASKS_KEY
      = Some (SArray (example_tasks ++ [mkTask (Some 1700000000000%Z) x false]))
    ∧ Popup.addTask typing_world = Some (tt, w2)
    ∧ storage w2 !! TODAY_TASKS_KEY
      = Some (SArray (example_tasks ++ [mkTask None x false])).
Proof.
  apply (addTask_stores_trimmed_text 1700000000000 (Some example_tasks) typing_world).
  - discriminate.
  - reflexivity.
Defined.

(** ** A listener and the [initialize] it starts *)

Lemma elem_of_partitioned l t : t ∈ partitioned l → t ∈ l.
Proof.
  unfold partitioned. rewrite elem_of_app, !elem_of_filter_bool. tauto.
Qed.

(** The [initialize] that a listener has started, on the day that is
    stored, after the listener has written the list [lst'] of its
    section. *)
Lemma settle_same_day_after_write todayDate isSp lst' other w :
  todayDate ≠ "" →
  pending w = [JInitialize] →
  storage w !! key_of isSp = Some (SArray lst') →
  storage w !! key_of (negb isSp) = SArray <$> other →
  storage w !! LAST_OPEN_DATE_KEY = Some (SString todayDate) →
  ∃ w',
    settle todayDate w = Some (tt, w')
    ∧ storage w' = storage w
    ∧ saves w' = saves w
    ∧ shown (items_of isSp (document w')) = partitioned lst'
    ∧ shown (items_of (negb isSp) (document w')) = partitioned (default [] other)
    ∧ pending w' = [].
Proof.
  intros Hd Hp Hk Ho Hl.
  set (wc := mkWorld (heap w) (storage w) (document w) [] (saves w)).
  destruct isSp; simpl in *.
  - destruct (initialize_same_day todayDate other (Some lst') wc)
      as (w' & Hi & Hst & Hsv & Ht & Hs & _ & Hpend); [done..|].
    exists w'. split; [by apply settle_initialize|]. by split_and!.
  - destruct (initialize_same_day todayDate (Some lst') other wc)
      as (w' & Hi & Hst & Hsv & Ht & Hs & _ & Hpend); [done..|].
    exists w'. split; [by apply settle_initialize|]. by split_and!.
Qed.

(** X17. A checkbox is changed and the [initialize] that its listener
    starts runs, on the day that is stored as last open date: the list of
    the section is stored with the new state of the task, and the page
    shows that list again with its incomplete tasks first, each group in
    the order of the list; the other section shows what it showed.  Only
    the listener writes. *)
Theorem checkbox_change_then_initialize todayDate c lst i t t0 isSp checked other w :
  todayDate ≠ "" →
  heap w !! c = Some lst →
  lst !! i = Some t →
  storage w !! key_of (negb isSp) = SArray <$> other →
  storage w !! LAST_OPEN_DATE_KEY = Some (SString todayDate) →
  pending w = [] →
  ∃ w',
    (checkbox_change (mkElement t0 (VArray c) i isSp) checked ;;
     settle todayDate) w = Some (tt, w')
    ∧ storage w' !! key_of isSp
      = Some (SArray (<[i := mkTask (id t) (text t) checked]> lst))
    ∧ shown (items_of isSp (document w'))
      = List.filter incomplete (<[i := mkTask (id t) (text t) checked]> lst)
        ++ List.filter completed (<[i := mkTask (id t) (text t) checked]> lst)
    ∧ shown (items_of (negb isSp) (document w'))
      = List.filter incomplete (default [] other)
        ++ List.filter completed (default [] other)
    ∧ saves w'
      = saves w
        ++ [ {[ key_of isSp := SArray (<[i := mkTask (id t) (text t) checked]> lst) ]} ]
    ∧ pending w' = [].
Proof.
  intros Hd Hc Hi Ho Hl Hp.
  rewrite (bind_eq _ _ _ _ _ (checkbox_change_eq c lst t t0 i isSp checked w Hc Hi)).
  set (w1 := mkWorld _ _ _ _ _).
  destruct (settle_same_day_after_write todayDate isSp
              (<[i := mkTask (id t) (text t) checked]> lst) other w1)
    as (w' & Hs & Hst & Hsv & Hshow & Hshow' & Hpend).
  - done.
  - simpl. by rewrite Hp.
  - simpl. by rewrite lookup_insert_eq.
  - simpl. rewrite lookup_insert_ne by (by destruct isSp). done.
  - simpl. rewrite lookup_insert_ne by (by destruct isSp). done.
  - exists w'. split; [done|]. rewrite Hst, Hsv. simpl.
    rewrite lookup_insert_eq. by split_and!.
Qed.

Lemma checkbox_change_then_initialize_witness :
  ∃ w',
    (checkbox_change (mkElement (mkTask (Some 2%Z) "two" false) (VArray 0) 1 false) true ;;
     settle "2024-01-02")
      (mkWorld [example_tasks]
         {[ TODAY_TASKS_KEY := SArray example_tasks;
            LAST_OPEN_DATE_KEY := SString "2024-01-02" ]}
         empty_document [] []) = Some (tt, w')
    ∧ storage w' !! key_of false
      = Some (SArray (<[1 := mkTask (Some 2%Z) "two" true]> example_tasks))
    ∧ shown (items_of false (document w'))
      = List.filter incomplete (<[1 := mkTask (Some 2%Z) "two" true]> example_tasks)
        ++ List.filter completed (<[1 := mkTask (Some 2%Z) "two" true]> example_tasks)
    ∧ shown (items_of (negb false) (document w'))
      = List.filter incomplete (default [] None)
        ++ List.filter completed (default [] None)
    ∧ saves w'
      = [] ++ [ {[ key_of false
                   := SArray (<[1 := mkTask (Some 2%Z) "two" true]> example_tasks) ]} ]
    ∧ pending w' = [].
Proof.
  apply (checkbox_change_then_initialize "2024-01-02" 0 example_tasks 1
           (mkTask (Some 2%Z) "two" false) (mkTask (Some 2%Z) "two" false)
           false true None
           (mkWorld [example_tasks]
              {[ TODAY_TASKS_KEY := SArray example_tasks;
                 LAST_OPEN_DATE_KEY := SString "2024-01-02" ]}
              empty_document [] [])).
  - discriminate.
  - reflexivity.
  - reflexivity.
  - reflexivity.
  - reflexivity.
  - reflexivity.
Defined.

(** X18. A delete button is pressed and the [initialize] that its listener
    starts runs, on the day that is stored as last open date: the list of
    the section is stored without the task at the index of the item, and
    the page shows that list, one item less than the list had; when the
    ids of the list are distinct, no item of the section shows a task with
    the id of the removed one any more.  Only the listener writes. *)
Theorem deleteBtn_click_then_initialize todayDate c lst i t t0 isSp other w :
  todayDate ≠ "" →
  heap w !! c = Some lst →
  lst !! i = Some t →
  storage w !! key_of (negb isSp) = SArray <$> other →
  storage w !! LAST_OPEN_DATE_KEY = Some (SString todayDate) →
  pending w = [] →
  ∃ w',
    (deleteBtn_click (mkElement t0 (VArray c) i isSp) ;; settle todayDate) w
    = Some (tt, w')
    ∧ storage w' !! key_of isSp = Some (SArray (take i lst ++ drop (S i) lst))
    ∧ shown (items_of isSp (document w'))
      = List.filter incomplete (take i lst ++ drop (S i) lst)
        ++ List.filter completed (take i lst ++ drop (S i) lst)
    ∧ S (length (items_of isSp (document w'))) = length lst
    ∧ (NoDup (map id lst) →
       ∀ e, e ∈ items_of isSp (document w') → id (el_task e) ≠ id t)
    ∧ saves w' = saves w ++ [ {[ key_of isSp := SArray (take i lst ++ drop (S i) lst) ]} ]
    ∧ pending w' = [].
Proof.
  intros Hd Hc Hi Ho Hl Hp.
  rewrite (bind_eq _ _ _ _ _ (deleteBtn_click_eq c lst t0 i isSp w Hc)).
  unfold splice. replace (i + 1) with (S i) by lia.
  set (lst' := take i lst ++ drop (S i) lst).
  set (w1 := mkWorld _ _ _ _ _).
  assert (Hlst : lst = take i lst ++ t :: drop (S i) lst)
    by (by rewrite take_drop_middle).
  destruct (settle_same_day_after_write todayDate isSp lst' other w1)
    as (w' & Hs & Hst & Hsv & Hshow & Hshow' & Hpend).
  - done.
  - simpl. by rewrite Hp.
  - simpl. by rewrite lookup_insert_eq.
  - simpl. rewrite lookup_insert_ne by (by destruct isSp). done.
  - simpl. rewrite lookup_insert_ne by (by destruct isSp). done.
  - exists w'. split; [done|]. rewrite Hst, Hsv. simpl.
    rewrite lookup_insert_eq. split_and!; try done.
    + assert (Hlen : length (shown (items_of isSp (document w'))) = length lst')
        by (by rewrite Hshow, length_partitioned).
      unfold shown in Hlen. rewrite length_map in Hlen. rewrite Hlen.
      unfold lst'. rewrite length_app, length_take, length_drop.
      apply lookup_lt_Some in Hi. lia.
    + intros Hnd e He.
      assert (Hin : el_task e ∈ shown (items_of isSp (document w'))).
      { unfold shown. apply list_elem_of_In, in_map. by apply list_elem_of_In. }
      rewrite Hshow in Hin. apply elem_of_partitioned in Hin.
      rewrite Hlst in Hnd. by eapply NoDup_ids_middle.
Qed.

Lemma deleteBtn_click_then_initialize_witness :
  ∃ w',
    (deleteBtn_click (mkElement (mkTask (Some 2%Z) "two" false) (VArray 0) 1 false) ;;
     settle "2024-01-02")
      (mkWorld [example_tasks]
         {[ TODAY_TASKS_KEY := SArray example_tasks;
            LAST_OPEN_DATE_KEY := SString "2024-01-02" ]}
         empty_document [] []) = Some (tt, w')
    ∧ storage w' !! key_of false
      = Some (SArray (take 1 example_tasks ++ drop 2 example_tasks))
    ∧ shown (items_of false (document w'))
      = List.filter incomplete (take 1 example_tasks ++ drop 2 example_tasks)
        ++ List.filter completed (take 1 example_tasks ++ drop 2 example_tasks)
    ∧ S (length (items_of false (document w'))) = length example_tasks
    ∧ (NoDup (map id example_tasks) →
       ∀ e, e ∈ items_of false (document w') →
            id (el_task e) ≠ id (mkTask (Some 2%Z) "two" false))
    ∧ saves w'
      = [] ++ [ {[ key_of false
                   := SArray (take 1 example_tasks ++ drop 2 example_tasks) ]} ]
    ∧ pending w' = [].
Proof.
  apply (deleteBtn_click_then_initialize "2024-01-02" 0 example_tasks 1
           (mkTask (Some 2%Z) "two" false) (mkTask (Some 2%Z) "two" false)
           false None
           (mkWorld [example_tasks]
              {[ TODAY_TASKS_KEY := SArray example_tasks;
                 LAST_OPEN_DATE_KEY := SString "2024-01-02" ]}
              empty_document [] [])).
  - discriminate.
  - reflexivity.
  - reflexivity.
  - reflexivity.
  - reflexivity.
  - reflexivity.
Defined.

(** ** Sessions *)

(** X19. A session that starts from the empty storage, with a clock that
    gives every [addTask] a number no stored task of the today list has as
    id: every further event (the popup opened, a text submitted, the
    checkbox or the delete button of an item of the page used) runs
    without an error, and the [initialize] it starts leaves nothing
    pending, a page whose items hold the arrays with the stored lists and
    indices inside them, and stored lists without a shared id. *)
Theorem session_event_runs todayDate ev w :
  reachable w → fresh_for ev w →
  ∃ w',
    react todayDate ev w = Some (tt, w')
    ∧ reachable w'
    ∧ lists_stored w' ∧ ids_distinct w' ∧ page_in_sync w' ∧ pending w' = [].
Proof.
  intros Hr Hf.
  destruct (react_settles todayDate ev w (reachable_settled w Hr) Hf)
    as (w' & H & _).
  assert (Hr' : reachable w') by (by eapply reachable_step).
  exists w'. split; [done|]. split; [done|]. by apply reachable_settled.
Qed.

Lemma session_event_runs_witness :
  ∃ w',
    react "2024-01-03" (Delete false 0) busy_world = Some (tt, w')
    ∧ reachable w'
    ∧ lists_stored w' ∧ ids_distinct w' ∧ page_in_sync w' ∧ pending w' = [].
Proof.
  apply (session_event_runs "2024-01-03" (Delete false 0) busy_world).
  - eapply (reachable_step "2024-01-02" (Add "b" 1700000000001)).
    + eapply (reachable_step "2024-01-02" (Toggle false 0 true)).
      * eapply (reachable_step "2024-01-02" (Add "  a " 1700000000000)).
        -- eapply (reachable_first "2024-01-02"). vm_compute. reflexivity.
        -- vm_compute. by intros ?%elem_of_nil.
        -- vm_compute. reflexivity.
      * exact I.
      * vm_compute. reflexivity.
    + vm_compute. intros [H|H]%elem_of_cons; [discriminate H|by apply elem_of_nil in H].
    + vm_compute. reflexivity.
  - exact I.
Defined.

Lemma Forall_filter_bool (Q : Task → Prop) p l :
  Forall Q l → Forall Q (List.filter p l).
Proof.
  rewrite !Forall_forall. intros H t [Ht _]%elem_of_filter_bool. by apply H.
Qed.

(** What holds of every stored task still does after [initialize], which
    stores no task that was not stored. *)
Lemma initialize_Forall (Q : Task → Prop) todayDate w w' :
  lists_stored w →
  initialize todayDate w = Some (tt, w') →
  Forall Q (stored_list TODAY_TASKS_KEY w) →
  Forall Q (stored_list SPILLOVER_TASKS_KEY w) →
  Forall Q (stored_list TODAY_TASKS_KEY w')
  ∧ Forall Q (stored_list SPILLOVER_TASKS_KEY w').
Proof.
  intros Hls H Ft Fs.
  destruct (initialize_spec todayDate w Hls) as (w0 & H0 & _ & _ & _ & Hc).
  rewrite H0 in H. injection H as <-.
  destruct Hc as [[-> ->]|[-> ->]]; split; try done.
  by apply Forall_filter_bool.
Qed.

Lemma settle_Forall (Q : Task → Prop) todayDate w w' :
  pending w = [JInitialize] →
  lists_stored w →
  settle todayDate w = Some (tt, w') →
  Forall Q (stored_list TODAY_TASKS_KEY w) →
  Forall Q (stored_list SPILLOVER_TASKS_KEY w) →
  Forall Q (stored_list TODAY_TASKS_KEY w')
  ∧ Forall Q (stored_list SPILLOVER_TASKS_KEY w').
Proof.
  intros Hp Hls H Ft Fs.
  set (wc := mkWorld (heap w) (storage w) (document w) [] (saves w)).
  destruct (initialize_spec todayDate wc Hls) as (w0 & H0 & _).
  rewrite (settle_initialize todayDate w w0 Hp H0) in H. injection H as <-.
  exact (initialize_Forall Q todayDate wc w0 Hls H0 Ft Fs).
Qed.

(** A list written under one of the two list keys. *)
Lemma write_list_Forall (Q : Task → Prop) isSp l w w' :
  lists_stored w →
  storage w' = <[key_of isSp := SArray l]> (storage w) →
  Forall Q l →
  Forall Q (stored_list TODAY_TASKS_KEY w) →
  Forall Q (stored_list SPILLOVER_TASKS_KEY w) →
  lists_stored w'
  ∧ Forall Q (stored_list TODAY_TASKS_KEY w')
  ∧ Forall Q (stored_list SPILLOVER_TASKS_KEY w').
Proof.
  intros [[ot Ht] [os Hs]] Hst Hl Ft Fs.
  unfold lists_stored, stored_list in *. rewrite Hst.
  destruct isSp; simpl.
  - rewrite lookup_insert_eq, lookup_insert_ne by done.
    split; [split; [by exists ot|by exists (Some l)]|done].
  - rewrite lookup_insert_eq, lookup_insert_ne by done.
    split; [split; [by exists (Some l)|by exists os]|done].
Qed.

(** What holds of the tasks that [addTask] makes, and of a task whatever
    its [completed] is, holds of every stored task after an event if it
    did before: no event stores another task. *)
Lemma react_Forall (Q : Task → Prop) todayDate ev w w' :
  (∀ t b, Q t → Q (mkTask (id t) (text t) b)) →
  (∀ s now, trim s ≠ "" → Q (mkTask (Some now) (trim s) false)) →
  settled w →
  react todayDate ev w = Some (tt, w') →
  Forall Q (stored_list TODAY_TASKS_KEY w) →
  Forall Q (stored_list SPILLOVER_TASKS_KEY w) →
  Forall Q (stored_list TODAY_TASKS_KEY w')
  ∧ Forall Q (stored_list SPILLOVER_TASKS_KEY w').
Proof.
  intros HQt HQn (Hls & Hid & Hsync & Hp) H Ft Fs.
  assert (Hitem : ∀ isSp k (f : Element → M unit),
    (∀ t c i,
        heap w !! c = Some (stored_list (key_of isSp) w) →
        i < length (stored_list (key_of isSp) w) →
        ∃ w1 l, f (mkElement t (VArray c) i isSp) w = Some (tt, w1)
                ∧ pending w1 = [JInitialize]
                ∧ storage w1 = <[key_of isSp := SArray l]> (storage w)
                ∧ Forall Q l) →
    (on_item isSp k f ;; settle todayDate) w = Some (tt, w') →
    Forall Q (stored_list TODAY_TASKS_KEY w')
    ∧ Forall Q (stored_list SPILLOVER_TASKS_KEY w')).
  { intros isSp k f Hf Hrun.
    destruct (items_of isSp (document w) !! k) as [e|] eqn:E.
    - assert (He : e ∈ items_of isSp (document w))
        by (by eapply list_elem_of_lookup_2).
      destruct (Hsync isSp e He) as (c & Hc & Hsp & Hh & Hi).
      destruct e as [t v i sp]. simpl in *. subst v sp.
      destruct (Hf t c i Hh Hi) as (w1 & l & Hw1 & Hp1 & Hst1 & Hl).
      assert (Hm : on_item isSp k f w = Some (tt, w1))
        by (unfold on_item, bind, get_world; by rewrite E).
      rewrite (bind_eq _ _ _ _ _ Hm) in Hrun.
      destruct (write_list_Forall Q isSp l w w1 Hls Hst1 Hl Ft Fs)
        as (Hls1 & Ft1 & Fs1).
      by eapply settle_Forall.
    - assert (Hm : on_item isSp k f w = Some (tt, w))
        by (unfold on_item, bind, get_world; by rewrite E).
      rewrite (bind_eq _ _ _ _ _ Hm), settle_nothing in Hrun by done.
      by injection Hrun as <-. }
  destruct ev as [|s now|isSp k checked|isSp k]; simpl in H.
  - (* the popup is opened *)
    unfold open_popup in H. erewrite bind_eq in H by reflexivity.
    by eapply initialize_Forall in H.
  - (* a task is added *)
    erewrite bind_eq in H by apply set_taskInput_value_eq.
    set (w0 := mkWorld _ _ _ _ _) in H.
    destruct Hls as [[today Ht] Hspill].
    destruct (decide (trim s = "")) as [Hs|Hs].
    + rewrite (bind_eq _ _ _ _ _ (addTask_empty_trim now w0 Hs)) in H.
      rewrite settle_nothing in H by done. by injection H as <-.
    + rewrite (bind_eq _ _ _ _ _ (addTask_eq now today w0 Hs Ht)) in H.
      set (w1 := mkWorld _ _ _ _ _) in H.
      destruct (write_list_Forall Q false
                  (default [] today ++ [mkTask (Some now) (trim s) false]) w w1)
        as (Hls1 & Ft1 & Fs1); try done.
      * by split; [exists today|].
      * apply Forall_app. split; [|by repeat constructor; apply HQn].
        by rewrite <- (stored_list_eq _ _ _ Ht).
      * eapply settle_Forall; [|exact Hls1|exact H|exact Ft1|exact Fs1].
        simpl. by rewrite Hp.
  - (* a checkbox is changed *)
    apply (Hitem isSp k (λ e, checkbox_change e checked)); [|exact H].
    intros t c i Hh Hi.
    destruct (lookup_lt_is_Some_2 _ _ Hi) as [t' Ht'].
    do 2 eexists. split; [eapply checkbox_change_eq; [exact Hh|exact Ht']|]. simpl.
    split; [by rewrite Hp|]. split; [done|].
    apply Forall_insert; [by destruct isSp|].
    apply HQt. destruct isSp; simpl in *.
    + by eapply (proj1 (Forall_lookup _ _) Fs).
    + by eapply (proj1 (Forall_lookup _ _) Ft).
  - (* a delete button is pressed *)
    apply (Hitem isSp k deleteBtn_click); [|exact H].
    intros t c i Hh Hi.
    do 2 eexists. split; [by apply deleteBtn_click_eq|]. simpl.
    split; [by rewrite Hp|]. split; [done|].
    unfold splice. apply Forall_app. split.
    + apply Forall_take. by destruct isSp.
    + apply Forall_drop. by destruct isSp.
Qed.

Lemma well_formed_task_trim s now :
  trim s ≠ "" → well_formed_task (mkTask (Some now) (trim s) false).
Proof.
  intros Hs. destruct (trim_split s) as (pre & post & _ & _ & _ & Hends).
  destruct (Hends Hs) as [Hf Hl]. by split_and!.
Qed.

(** X20. In every world that a session leads to from the empty storage,
    every stored task, of the today list and of the spillover list, is as
    [addTask] makes them: it has an id, and its text is not empty and has
    no white space at its start or end.  No listener and no rollover
    stores a task that was not stored, or changes an id or a text. *)
Theorem session_stores_well_formed_tasks w :
  reachable w →
  Forall well_formed_task (stored_list TODAY_TASKS_KEY w)
  ∧ Forall well_formed_task (stored_list SPILLOVER_TASKS_KEY w).
Proof.
  induction 1 as [d w H|d ev w w' Hr [IHt IHs] Hfresh H].
  - unfold open_popup in H. erewrite bind_eq in H by reflexivity.
    eapply initialize_Forall in H; [exact H| |constructor|constructor].
    split; by exists None.
  - eapply (react_Forall well_formed_task d ev w w'); try done.
    + apply well_formed_task_trim.
    + by apply reachable_settled.
Qed.

Lemma session_stores_well_formed_tasks_witness :
  Forall well_formed_task (stored_list TODAY_TASKS_KEY busy_world)
  ∧ Forall well_formed_task (stored_list SPILLOVER_TASKS_KEY busy_world).
Proof.
  apply (session_stores_well_formed_tasks busy_world).
  eapply (reachable_step "2024-01-02" (Add "b" 1700000000001)).
  - eapply (reachable_step "2024-01-02" (Toggle false 0 true)).
    + eapply (reachable_step "2024-01-02" (Add "  a " 1700000000000)).
      * eapply (reachable_first "2024-01-02"). vm_compute. reflexivity.
      * vm_compute. by intros ?%elem_of_nil.
      * vm_compute. reflexivity.
    + exact I.
    + vm_compute. reflexivity.
  - vm_compute. intros [H|H]%elem_of_cons; [discriminate H|by apply elem_of_nil in H].
  - vm_compute. reflexivity.
Defined.

(** ** The popup left open, and the page of [popup.js] *)

(** X21. A task is added on another day than the one stored as last open
    date (the popup was left open over midnight, or no date is stored):
    the [initialize] that [addTask] starts rolls the lists over, the new
    task with them.  The today list is stored empty and shown empty; the
    new task is stored and shown as the last task of the spillover list,
    after the incomplete tasks the today list had. *)
Theorem addTask_then_initialize_on_a_new_day todayDate now today w :
  trim (taskInput_value (document w)) ≠ "" →
  storage w !! TODAY_TASKS_KEY = SArray <$> today →
  storage w !! LAST_OPEN_DATE_KEY ≠ Some (SString todayDate) →
  pending w = [] →
  ∃ w',
    (addTask now ;; settle todayDate) w = Some (tt, w')
    ∧ storage w' !! TODAY_TASKS_KEY = Some (SArray [])
    ∧ storage w' !! SPILLOVER_TASKS_KEY
      = Some (SArray (List.filter incomplete (default [] today)
                      ++ [mkTask (Some now) (trim (taskInput_value (document w))) false]))
    ∧ storage w' !! LAST_OPEN_DATE_KEY = Some (SString todayDate)
    ∧ shown (taskList (document w')) = []
    ∧ shown (spilloverList (document w'))
      = List.filter incomplete (default [] today)
        ++ [mkTask (Some now) (trim (taskInput_value (document w))) false]
    ∧ spilloverSection_display (document w') = true
    ∧ taskInput_value (document w') = ""
    ∧ pending w' = [].
Proof.
  intros Htxt Ht Hl Hp.
  rewrite (bind_eq _ _ _ _ _ (addTask_eq now today w Htxt Ht)).
  set (new := mkTask (Some now) (trim (taskInput_value (document w))) false).
  set (w1 := mkWorld _ _ _ _ _).
  set (wc := mkWorld (heap w1) (storage w1) (document w1) [] (saves w1)).
  assert (Hf : List.filter incomplete (default [] today ++ [new])
               = List.filter incomplete (default [] today) ++ [new])
    by (by rewrite List.filter_app).
  destruct (reconcile_new_day todayDate (Some (default [] today ++ [new])) wc)
    as (t & s & w2 & H & Ht2 & Hs2 & Hst & Hdoc & Hp2).
  { simpl. by rewrite lookup_insert_eq. }
  { right. simpl. by rewrite lookup_insert_ne. }
  simpl in Hs2, Hst. rewrite Hf in Hs2, Hst.
  eexists. split.
  { apply settle_initialize; [simpl; by rewrite Hp|].
    by eapply (initialize_after_reconcile todayDate wc). }
  simpl. rewrite Hst, Hdoc.
  split_and!; try done; try storage_lookup.
  - rewrite shown_items, List.filter_app, filter_incomplete_idem.
    rewrite List.filter_app, filter_completed_incomplete.
    subst new. simpl. by rewrite app_nil_r.
  - rewrite length_app. simpl. apply Nat.ltb_lt. lia.
Qed.

Lemma addTask_then_initialize_on_a_new_day_witness :
  ∃ w',
    (addTask 1700000000000 ;; settle "2024-01-02") yesterday_world = Some (tt, w')
    ∧ storage w' !! TODAY_TASKS_KEY = Some (SArray [])
    ∧ storage w' !! SPILLOVER_TASKS_KEY
      = Some (SArray (List.filter incomplete [ mkTask (Some 1%Z) "one" false ]
                      ++ [mkTask (Some 1700000000000%Z) "two" false]))
    ∧ storage w' !! LAST_OPEN_DATE_KEY = Some (SString "2024-01-02")
    ∧ shown (taskList (document w')) = []
    ∧ shown (spilloverList (document w'))
      = List.filter incomplete [ mkTask (Some 1%Z) "one" false ]
        ++ [mkTask (Some 1700000000000%Z) "two" false]
    ∧ spilloverSection_display (document w') = true
    ∧ taskInput_value (document w') = ""
    ∧ pending w' = [].
Proof.
  apply (addTask_then_initialize_on_a_new_day "2024-01-02" 1700000000000
           (Some [ mkTask (Some 1%Z) "one" false ]) yesterday_world).
  - discriminate.
  - reflexivity.
  - discriminate.
  - reflexivity.
Defined.

Lemma shown_imap (f : nat → Task → Element) l :
  (∀ k t, el_task (f k t) = t) → shown (imap f l) = l.
Proof.
  revert f. induction l as [|t l IH]; intros f Hf; simpl; [done|].
  rewrite Hf. f_equal. apply IH. intros k u. apply Hf.
Qed.

Lemma lookup_Popup_items isSp v l k e :
  Popup_items isSp v l !! k = Some e → el_index e = k.
Proof.
  unfold Popup_items. rewrite list_lookup_imap.
  destruct (l !! k); simpl; [|done]. by intros [= <-].
Qed.

(** X22. [Popup.initialize] on the day that is stored as last open date:
    nothing is written, and the page shows the two stored lists as they
    are stored, task by task in the order of the list, not the incomplete
    tasks first; every item has its position as index.  The listeners of
    the form are marked as set. *)
Theorem Popup_initialize_on_the_stored_day todayDate today spill w :
  todayDate ≠ "" →
  storage w !! TODAY_TASKS_KEY = SArray <$> today →
  storage w !! SPILLOVER_TASKS_KEY = SArray <$> spill →
  storage w !! LAST_OPEN_DATE_KEY = Some (SString todayDate) →
  ∃ w',
    Popup.initialize todayDate w = Some (tt, w')
    ∧ storage w' = storage w
    ∧ saves w' = saves w
    ∧ shown (taskList (document w')) = default [] today
    ∧ shown (spilloverList (document w')) = default [] spill
    ∧ (∀ isSp k e, items_of isSp (document w') !! k = Some e → el_index e = k)
    ∧ (spilloverSection_display (document w') = true ↔ default [] spill ≠ [])
    ∧ listeners_set (document w') = true
    ∧ pending w' = pending w.
Proof.
  intros Hd Ht Hs Hl. rewrite Popup_initialize_reconcile.
  rewrite (bind_eq _ _ _ _ _ (Popup_reconcile_same_day _ today spill w Hd Ht Hs Hl)).
  cbn [fst snd].
  erewrite bind_eq by (apply Popup_renderLists_eq; apply lookup_allocated_twice).
  rewrite (bind_eq get_world _ _ _ _ eq_refl).
  assert (Hall : ∀ W,
    storage W = storage w → saves W = saves w → pending W = pending w →
    taskList (document W)
      = Popup_items false (VArray (length (heap w))) (default [] today) →
    spilloverList (document W)
      = Popup_items true (VArray (S (length (heap w)))) (default [] spill) →
    spilloverSection_display (document W) = (0 <? length (default [] spill)) →
    listeners_set (document W) = true →
    storage W = storage w
    ∧ saves W = saves w
    ∧ shown (taskList (document W)) = default [] today
    ∧ shown (spilloverList (document W)) = default [] spill
    ∧ (∀ isSp k e, items_of isSp (document W) !! k = Some e → el_index e = k)
    ∧ (spilloverSection_display (document W) = true ↔ default [] spill ≠ [])
    ∧ listeners_set (document W) = true
    ∧ pending W = pending w).
  { intros W Hst Hsv Hp Htl Hsl Hdisp Hls. split_and!; try done.
    - rewrite Htl. by apply shown_imap.
    - rewrite Hsl. by apply shown_imap.
    - intros isSp k e. destruct isSp; simpl; rewrite ?Htl, ?Hsl;
        apply lookup_Popup_items.
    - rewrite Hdisp. destruct (default [] spill); simpl; split; done. }
  destruct (listeners_set (document w)) eqn:E.
  - eexists. split; [unfold Popup_rendered; simpl; rewrite E; reflexivity|].
    by apply Hall.
  - eexists. split.
    { unfold Popup_rendered. simpl. rewrite E. simpl. apply set_listeners_set_eq. }
    by apply Hall.
Qed.

Lemma Popup_initialize_on_the_stored_day_witness :
  ∃ w',
    Popup.initialize "2024-01-02" two_lists_world = Some (tt, w')
    ∧ storage w' = storage two_lists_world
    ∧ saves w' = saves two_lists_world
    ∧ shown (taskList (document w')) = order_example
    ∧ shown (spilloverList (document w')) = example_tasks
    ∧ (∀ isSp k e, items_of isSp (document w') !! k = Some e → el_index e = k)
    ∧ (spilloverSection_display (document w') = true ↔ example_tasks ≠ [])
    ∧ listeners_set (document w') = true
    ∧ pending w' = pending two_lists_world.
Proof.
  apply (Popup_initialize_on_the_stored_day "2024-01-02" (Some order_example)
           (Some example_tasks) two_lists_world).
  - discriminate.
  - reflexivity.
  - reflexivity.
  - reflexivity.
Defined.
